(** * HippoChat relay: a shallow embedding of [server.js]

    The relay keeps three process-wide tables ([rooms], [roomCreators],
    [userRooms]) and two properties on every socket object ([ws.roomId],
    [ws.username]).  Every handler runs to completion on a single thread,
    so a handler is a function from the state before the turn to the state
    after it, together with how the turn completed (normally or by a thrown
    exception).  The messages handed to [send] are appended to the [sent]
    log of the state, in the order of the calls. *)

From stdpp Require Import gmap strings list fin_maps.

Open Scope string_scope.
Open Scope list_scope.
Open Scope stdpp_scope.
Set Warnings "-register-all".

(** ** Values *)

(** A socket object; identity is reference equality in the source. *)
Definition conn := nat.

(** A JSON value: a field of the payload of an inbound chat message, or
    a field of an outgoing object literal. *)
Inductive jsval : Type :=
| JUndef
| JNull
| JBool (b : bool)
| JNum (n : Z)
| JStr (s : string)
| JArr (items : list jsval)
| JObj (fields : list (string * jsval)).

(** A string-typed field of an inbound message or of a socket object:
    present, [null], or missing. *)
Inductive jsopt : Type :=
| Undefined
| Null
| Str (s : string).

#[global] Instance jsopt_eq_dec : EqDecision jsopt.
Proof. solve_decision. Defined.

Definition to_js (x : jsopt) : jsval :=
  match x with
  | Undefined => JUndef
  | Null => JNull
  | Str s => JStr s
  end.

(** JavaScript truthiness of such a field: [!x] is false exactly for a
    non-empty string; the function returns that string. *)
Definition truthy (x : jsopt) : option string :=
  match x with
  | Str s => if decide (s = "") then None else Some s
  | _ => None
  end.

(** [a || b] *)
Definition js_or (a b : jsopt) : jsopt :=
  match truthy a with
  | Some _ => a
  | None => b
  end.

(** Object literals: [obj_get] reads a property, [obj_set] writes one
    (in place when the key is there, at the end otherwise). *)
Fixpoint obj_get (k : string) (o : list (string * jsval)) : option jsval :=
  match o with
  | [] => None
  | (k', v) :: rest => if decide (k' = k) then Some v else obj_get k rest
  end.

Fixpoint obj_set (k : string) (v : jsval) (o : list (string * jsval))
  : list (string * jsval) :=
  match o with
  | [] => [(k, v)]
  | (k', v') :: rest =>
      if decide (k' = k) then (k, v) :: rest else (k', v') :: obj_set k v rest
  end.

(** Does [k] name an own property of the object? *)
Definition obj_has (k : string) (o : list (string * jsval)) : bool :=
  existsb (λ kv, bool_decide (kv.1 = k)) o.

(** Interpolating a parsed JSON value into a template literal converts it
    to a string.  A primitive always converts.  An object converts through
    its [toString]: an object without an own [toString] inherits the one
    of [Object.prototype]; an own [toString] is a JSON value, hence not
    callable, and since [valueOf] (own or inherited) yields no primitive
    either, the conversion raises a TypeError.  An array joins the
    conversions of its elements, [null] counting as the empty string. *)
Fixpoint toString_throws (v : jsval) : bool :=
  match v with
  | JObj fields => obj_has "toString" fields
  | JArr items => existsb toString_throws items
  | _ => false
  end.

(** An inbound message after [JSON.parse], with the fields of the wire
    protocol at their types: [type], [roomId] and [username] are strings
    (or [null], or missing), [message] is an object (or missing) whose
    fields are arbitrary JSON values.  The handlers test [roomId] and
    [username] for truthiness only; a message that carries a number or an
    object there is not covered by this embedding. *)
Record client_message : Type := ClientMessage {
  msg_type : jsopt;
  msg_roomId : jsopt;
  msg_username : jsopt;
  msg_message : option (list (string * jsval))
}.

(** ** Sets of sockets

    A JavaScript [Set] iterates in insertion order; it is a list without
    repetition. *)
Definition set_add (c : conn) (s : list conn) : list conn :=
  if decide (c ∈ s) then s else s ++ [c].

Definition set_delete (c : conn) (s : list conn) : list conn :=
  filter (λ x, x ≠ c) s.

Definition set_has (c : conn) (s : list conn) : bool :=
  bool_decide (c ∈ s).

(** ** State *)

Record state : Type := State {
  rooms : gmap string (list conn);
  roomCreators : gmap string string;
  userRooms : gmap conn string;
  ws_roomId : gmap conn jsopt;
  ws_username : gmap conn jsopt;
  sent : list (conn * jsval)
}.

Definition initial : state :=
  {| rooms := ∅; roomCreators := ∅; userRooms := ∅;
     ws_roomId := ∅; ws_username := ∅; sent := [] |}.

(** [ws.roomId] and [ws.username]; a property never assigned reads
    [undefined]. *)
Definition prop_roomId (st : state) (ws : conn) : jsopt :=
  default Undefined (ws_roomId st !! ws).

Definition prop_username (st : state) (ws : conn) : jsopt :=
  default Undefined (ws_username st !! ws).

Definition with_rooms (f : gmap string (list conn) → gmap string (list conn))
    (st : state) : state :=
  {| rooms := f (rooms st); roomCreators := roomCreators st;
     userRooms := userRooms st; ws_roomId := ws_roomId st;
     ws_username := ws_username st; sent := sent st |}.

Definition with_roomCreators (f : gmap string string → gmap string string)
    (st : state) : state :=
  {| rooms := rooms st; roomCreators := f (roomCreators st);
     userRooms := userRooms st; ws_roomId := ws_roomId st;
     ws_username := ws_username st; sent := sent st |}.

Definition with_userRooms (f : gmap conn string → gmap conn string)
    (st : state) : state :=
  {| rooms := rooms st; roomCreators := roomCreators st;
     userRooms := f (userRooms st); ws_roomId := ws_roomId st;
     ws_username := ws_username st; sent := sent st |}.

Definition with_props (ws : conn) (r u : jsopt) (st : state) : state :=
  {| rooms := rooms st; roomCreators := roomCreators st;
     userRooms := userRooms st; ws_roomId := <[ws:=r]> (ws_roomId st);
     ws_username := <[ws:=u]> (ws_username st); sent := sent st |}.

Definition with_sent (f : list (conn * jsval) → list (conn * jsval))
    (st : state) : state :=
  {| rooms := rooms st; roomCreators := roomCreators st;
     userRooms := userRooms st; ws_roomId := ws_roomId st;
     ws_username := ws_username st; sent := f (sent st) |}.

(** ** Environment of one turn

    Every object literal that a handler builds reads the clock once, and
    in one turn no two literals of the same kind reach a socket; [now l]
    is what [Date.now()] returns in the literal of kind [l].  [readyOpen c]
    says whether [c.readyState === WebSocket.OPEN]; [sendThrows c] says
    whether [c.send(...)] raises. *)
Inductive literal : Type :=
| AtError | AtPong | AtRoomCreated | AtJoinError | AtJoinSuccess
| AtUserJoined | AtUserLeft | AtLeaveSuccess | AtChatMessage
| AtServerTimestamp.

Record env : Type := Env {
  now : literal → Z;
  readyOpen : conn → bool;
  sendThrows : conn → bool
}.

Inductive completion : Type := Normal | Threw.

Definition cmd : Type := state → completion * state.

(** Sequencing of statements: a throw skips what follows. *)
Definition seq (a b : cmd) : cmd :=
  λ st, match a st with
        | (Normal, st') => b st'
        | (Threw, st') => (Threw, st')
        end.

Declare Scope cmd_scope.
Delimit Scope cmd_scope with cmd.
Bind Scope cmd_scope with cmd.
Notation "a ;; b" := (seq a%cmd b%cmd)
  (at level 100, b at level 200, right associativity) : cmd_scope.

(** [ws.send(JSON.stringify(m))] *)
Definition ws_send (e : env) (ws : conn) (m : jsval) : cmd :=
  λ st, if sendThrows e ws then (Threw, st)
        else (Normal, with_sent (λ l, l ++ [(ws, m)]) st).

(** ** broadcastToRoom *)

(** The catch block: [room.delete(client); userRooms.delete(client)]. *)
Definition prune (roomId : string) (client : conn) (st : state) : state :=
  with_userRooms (delete client)
    (with_rooms (alter (set_delete client) roomId) st).

(** The body of the [forEach] callback. *)
Definition deliver_one (e : env) (roomId : string) (m : jsval)
    (excludeWs : option conn) (client : conn) (st : state) : state :=
  if negb (bool_decide (excludeWs = Some client)) && readyOpen e client then
    match ws_send e client m st with
    | (Normal, st') => st'
    | (Threw, st') => prune roomId client st'
    end
  else st.

(** [room.forEach]: the callback deletes at most the element it is
    visiting, so every member present at the start is visited once. *)
Fixpoint forEach_deliver (e : env) (roomId : string) (m : jsval)
    (excludeWs : option conn) (clients : list conn) (st : state) : state :=
  match clients with
  | [] => st
  | client :: rest =>
      forEach_deliver e roomId m excludeWs rest
        (deliver_one e roomId m excludeWs client st)
  end.

Definition broadcastToRoom (e : env) (roomId : string) (m : jsval)
    (excludeWs : option conn) : cmd :=
  λ st, match rooms st !! roomId with
        | Some room => (Normal, forEach_deliver e roomId m excludeWs room st)
        | None => (Normal, st)
        end.

(** ** Outgoing messages (the object literals of the handlers) *)

Definition error_msg (text : string) (e : env) : jsval :=
  JObj [("type", JStr "error"); ("message", JStr text);
        ("timestamp", JNum (now e AtError))].

Definition error_room_msg (text : string) (roomId : jsopt) (e : env) : jsval :=
  JObj [("type", JStr "error"); ("message", JStr text);
        ("roomId", to_js roomId); ("timestamp", JNum (now e AtError))].

Definition pong_msg (e : env) : jsval :=
  JObj [("type", JStr "pong"); ("timestamp", JNum (now e AtPong))].

Definition room_created_msg (roomId username : string) (e : env) : jsval :=
  JObj [("type", JStr "room_created"); ("roomId", JStr roomId);
        ("username", JStr username);
        ("timestamp", JNum (now e AtRoomCreated));
        ("message", JStr "Room created successfully")].

Definition join_error_msg (text roomId : string) (e : env) : jsval :=
  JObj [("type", JStr "join_error"); ("message", JStr text);
        ("roomId", JStr roomId); ("timestamp", JNum (now e AtJoinError))].

Definition join_success_msg (roomId username : string) (e : env)
    (size : nat) : jsval :=
  JObj [("type", JStr "join_success"); ("roomId", JStr roomId);
        ("username", JStr username);
        ("timestamp", JNum (now e AtJoinSuccess));
        ("message", JStr "Successfully joined room");
        ("participantCount", JNum (Z.of_nat size))].

Definition user_joined_creator_msg (roomId username : string) (e : env)
  : jsval :=
  JObj [("type", JStr "user_joined"); ("roomId", JStr roomId);
        ("username", JStr username);
        ("timestamp", JNum (now e AtUserJoined));
        ("isCreator", JBool true)].

Definition user_joined_msg (roomId username : string) (e : env)
    (size : nat) : jsval :=
  JObj [("type", JStr "user_joined"); ("roomId", JStr roomId);
        ("username", JStr username);
        ("timestamp", JNum (now e AtUserJoined));
        ("participantCount", JNum (Z.of_nat size))].

(** [user_left] as sent to the room a socket is switched away from. *)
Definition user_left_switch_msg (roomId username : string) (e : env) : jsval :=
  JObj [("type", JStr "user_left"); ("roomId", JStr roomId);
        ("username", JStr username); ("timestamp", JNum (now e AtUserLeft))].

(** [user_left] as sent by [handleLeaveRoom]. *)
Definition user_left_msg (roomId : string) (username : jsopt) (e : env)
    (size : nat) : jsval :=
  JObj [("type", JStr "user_left"); ("roomId", JStr roomId);
        ("username", to_js username); ("timestamp", JNum (now e AtUserLeft));
        ("participantCount", JNum (Z.of_nat size))].

(** [user_left] as sent by [handleUserDisconnect]. *)
Definition user_left_disconnected_msg (roomId username : string) (e : env)
    (size : nat) : jsval :=
  JObj [("type", JStr "user_left"); ("roomId", JStr roomId);
        ("username", JStr username); ("timestamp", JNum (now e AtUserLeft));
        ("participantCount", JNum (Z.of_nat size));
        ("reason", JStr "disconnected")].

Definition leave_success_msg (roomId : string) (e : env) : jsval :=
  JObj [("type", JStr "leave_success"); ("roomId", JStr roomId);
        ("timestamp", JNum (now e AtLeaveSuccess));
        ("message", JStr "Left room successfully")].

(** [{...chatMessage, serverTimestamp: Date.now(), roomId: roomId}] *)
Definition enhancedMessage (chatMessage : list (string * jsval))
    (roomId : string) (e : env) : list (string * jsval) :=
  obj_set "roomId" (JStr roomId)
    (obj_set "serverTimestamp" (JNum (now e AtServerTimestamp)) chatMessage).

Definition chat_message_msg (roomId : string)
    (chatMessage : list (string * jsval)) (e : env) : jsval :=
  JObj [("type", JStr "chat_message"); ("roomId", JStr roomId);
        ("message", JObj (enhancedMessage chatMessage roomId e));
        ("timestamp", JNum (now e AtChatMessage))].

(** ** Handlers *)

(** [room.size] of the set stored under [roomId]. *)
Definition room_size (st : state) (roomId : string) : nat :=
  length (default [] (rooms st !! roomId)).

(** [if (!rooms.has(roomId)) { rooms.set(...); roomCreators.set(...) }] *)
Definition ensure_room (roomId username : string) : cmd :=
  λ st, match rooms st !! roomId with
        | Some _ => (Normal, st)
        | None =>
            (Normal, with_roomCreators (insert roomId username)
                       (with_rooms (insert roomId []) st))
        end.

(** The "remove user from any previous rooms" block of [handleCreateRoom]. *)
Definition leave_previous_create (e : env) (ws : conn) (username : string)
  : cmd :=
  λ st, match userRooms st !! ws with
        | Some previousRoomId =>
            match rooms st !! previousRoomId with
            | Some _ =>
                broadcastToRoom e previousRoomId
                  (user_left_switch_msg previousRoomId username e) (Some ws)
                  (with_rooms (alter (set_delete ws) previousRoomId) st)
            | None => (Normal, st)
            end
        | None => (Normal, st)
        end.

(** The same block of [handleJoinRoom], with its extra test
    [previousRoomId !== roomId]. *)
Definition leave_previous_join (e : env) (ws : conn)
    (roomId username : string) : cmd :=
  λ st, match userRooms st !! ws with
        | Some previousRoomId =>
            match rooms st !! previousRoomId with
            | Some _ =>
                if decide (previousRoomId = roomId) then (Normal, st)
                else
                  broadcastToRoom e previousRoomId
                    (user_left_switch_msg previousRoomId username e) (Some ws)
                    (with_rooms (alter (set_delete ws) previousRoomId) st)
            | None => (Normal, st)
            end
        | None => (Normal, st)
        end.

(** [userRooms.set(ws, roomId); ws.roomId = roomId; ws.username = username] *)
Definition bind_socket (ws : conn) (roomId username : string) (st : state)
  : state :=
  with_props ws (Str roomId) (Str username)
    (with_userRooms (insert ws roomId) st).

(** [rooms.get(roomId).add(ws)] followed by the binding; reading a
    property of [undefined] raises a TypeError. *)
Definition add_creator (ws : conn) (roomId username : string) : cmd :=
  λ st, match rooms st !! roomId with
        | Some _ =>
            (Normal, bind_socket ws roomId username
                       (with_rooms (alter (set_add ws) roomId) st))
        | None => (Threw, st)
        end.

Definition handleCreateRoom (e : env) (ws : conn) (message : client_message)
  : cmd :=
  match truthy (msg_roomId message), truthy (msg_username message) with
  | Some roomId, Some username =>
      (ensure_room roomId username ;;
       leave_previous_create e ws username ;;
       add_creator ws roomId username ;;
       ws_send e ws (room_created_msg roomId username e) ;;
       broadcastToRoom e roomId (user_joined_creator_msg roomId username e)
         (Some ws))%cmd
  | _, _ =>
      ws_send e ws
        (error_room_msg "Room ID and username are required"
           (msg_roomId message) e)
  end.

(** The loop [for (const client of room)] of [handleJoinRoom]: is there a
    member other than [ws] whose [username] property is [username]? *)
Definition name_taken (st : state) (room : list conn) (ws : conn)
    (username : string) : bool :=
  existsb (λ client,
             bool_decide (prop_username st client = Str username)
             && negb (bool_decide (client = ws))) room.

(** [room.add(ws)] on the set read at the start of the handler, then the
    binding. *)
Definition add_member (ws : conn) (roomId username : string) : cmd :=
  λ st, (Normal, bind_socket ws roomId username
                   (with_rooms (alter (set_add ws) roomId) st)).

Definition handleJoinRoom (e : env) (ws : conn) (message : client_message)
  : cmd :=
  match truthy (msg_roomId message), truthy (msg_username message) with
  | Some roomId, Some username =>
      λ st,
        match rooms st !! roomId with
        | None => ws_send e ws (join_error_msg "Room not found" roomId e) st
        | Some room =>
            if name_taken st room ws username then
              ws_send e ws
                (join_error_msg "Username already taken in this room"
                   roomId e) st
            else
              (leave_previous_join e ws roomId username ;;
               add_member ws roomId username ;;
               (λ st', ws_send e ws
                         (join_success_msg roomId username e
                            (room_size st' roomId)) st') ;;
               (λ st', broadcastToRoom e roomId
                         (user_joined_msg roomId username e
                            (room_size st' roomId)) (Some ws) st'))%cmd st
        end
  | _, _ =>
      ws_send e ws
        (error_room_msg "Room ID and username are required"
           (msg_roomId message) e)
  end.

(** [console.log] of a template literal that interpolates [values]: the
    call raises when one of them does not convert to a string.  The
    template literals of the other handlers interpolate room ids, names
    and set sizes, which are strings and numbers in this model and always
    convert; those calls change nothing and are left out. *)
Definition log_template (values : list jsval) : cmd :=
  λ st, if existsb toString_throws values then (Threw, st) else (Normal, st).

(** [chatMessage.author] *)
Definition author_of (chatMessage : list (string * jsval)) : jsval :=
  default JUndef (obj_get "author" chatMessage).

Definition handleChatMessage (e : env) (ws : conn) (message : client_message)
  : cmd :=
  match truthy (msg_roomId message), msg_message message with
  | Some roomId, Some chatMessage =>
      λ st,
        match rooms st !! roomId with
        | Some room =>
            if set_has ws room then
              (log_template [JStr roomId; author_of chatMessage] ;;
               broadcastToRoom e roomId
                 (chat_message_msg roomId chatMessage e) (Some ws))%cmd st
            else
              ws_send e ws
                (error_room_msg "You are not in this room"
                   (msg_roomId message) e) st
        | None =>
            ws_send e ws
              (error_room_msg "You are not in this room"
                 (msg_roomId message) e) st
        end
  | _, _ => ws_send e ws (error_msg "Room ID and message are required" e)
  end.

(** [room.delete(ws); userRooms.delete(ws)] *)
Definition remove_socket (ws : conn) (roomId : string) (st : state) : state :=
  with_userRooms (delete ws)
    (with_rooms (alter (set_delete ws) roomId) st).

(** [ws.roomId = null; ws.username = null] *)
Definition clear_props (ws : conn) : cmd :=
  λ st, (Normal, with_props ws Null Null st).

Definition handleLeaveRoom (e : env) (ws : conn) (message : client_message)
  : cmd :=
  λ st,
    match truthy (js_or (msg_roomId message) (prop_roomId st ws)) with
    | Some roomId =>
        match rooms st !! roomId with
        | Some _ =>
            let username := prop_username st ws in
            ((λ st', broadcastToRoom e roomId
                       (user_left_msg roomId username e
                          (room_size st' roomId)) None st') ;;
             clear_props ws ;;
             ws_send e ws (leave_success_msg roomId e))%cmd
              (remove_socket ws roomId st)
        | None => (Normal, st)
        end
    | None => (Normal, st)
    end.

Definition handleUserDisconnect (e : env) (ws : conn) : cmd :=
  λ st,
    match truthy (prop_roomId st ws) with
    | Some roomId =>
        match rooms st !! roomId with
        | Some _ =>
            let st' := remove_socket ws roomId st in
            match truthy (prop_username st ws) with
            | Some username =>
                broadcastToRoom e roomId
                  (user_left_disconnected_msg roomId username e
                     (room_size st' roomId)) None st'
            | None => (Normal, st')
            end
        | None => (Normal, st)
        end
    | None => (Normal, st)
    end.

Definition handleMessage (e : env) (ws : conn) (message : client_message)
  : cmd :=
  match msg_type message with
  | Str "create_room" => handleCreateRoom e ws message
  | Str "join_room" => handleJoinRoom e ws message
  | Str "chat_message" => handleChatMessage e ws message
  | Str "leave_room" => handleLeaveRoom e ws message
  | Str "ping" => ws_send e ws (pong_msg e)
  | _ => ws_send e ws (error_msg "Unknown message type" e)
  end.

(** The ['message'] listener: [data] is [None] when [JSON.parse] raises
    (or yields a value without properties, on which reading [type]
    raises); whatever is thrown inside the [try] is answered with an
    [error]. *)
Definition on_message (e : env) (ws : conn) (data : option client_message)
  : cmd :=
  λ st,
    match data with
    | Some message =>
        match handleMessage e ws message st with
        | (Normal, st') => (Normal, st')
        | (Threw, st') =>
            ws_send e ws (error_msg "Invalid message format" e) st'
        end
    | None => ws_send e ws (error_msg "Invalid message format" e) st
    end.

(** The ['close'] listener. *)
Definition on_close (e : env) (ws : conn) : cmd := handleUserDisconnect e ws.

(** The body of the [setInterval] callback: every entry of [rooms] whose
    set is empty is deleted from [rooms] and from [roomCreators]. *)
Definition reap_entry (entry : string * list conn) (st : state) : state :=
  if decide (length entry.2 = 0%nat) then
    with_roomCreators (delete entry.1) (with_rooms (delete entry.1) st)
  else st.

Definition reaper (st : state) : state :=
  foldr reap_entry st (map_to_list (rooms st)).

(** ** The event loop *)

Inductive event : Type :=
| EvMessage (ws : conn) (data : option client_message)
| EvClose (ws : conn)
| EvSweep.

Definition handle_event (e : env) (ev : event) : cmd :=
  match ev with
  | EvMessage ws data => on_message e ws data
  | EvClose ws => on_close e ws
  | EvSweep => λ st, (Normal, reaper st)
  end.

(** The states the server goes through: one turn after the other, each
    under the environment of its own time. *)
Inductive reachable : state → Prop :=
| reachable_initial : reachable initial
| reachable_turn e ev st :
    reachable st → reachable (handle_event e ev st).2.

(** Run a list of turns from a state. *)
Fixpoint run (turns : list (env * event)) (st : state) : state :=
  match turns with
  | [] => st
  | (e, ev) :: rest => run rest (handle_event e ev st).2
  end.

(** ** Vocabulary of the statements *)

(** A member is pruned when the loop sends to it and the send raises; it
    is served when the send goes through. *)
Definition prunable (e : env) (excludeWs : option conn) (c : conn) : bool :=
  negb (bool_decide (excludeWs = Some c)) && readyOpen e c && sendThrows e c.

Definition deliverable (e : env) (excludeWs : option conn) (c : conn) : bool :=
  negb (bool_decide (excludeWs = Some c)) && readyOpen e c
  && negb (sendThrows e c).

(** The sockets pruned while visiting [l]. *)
Definition pruned (e : env) (excludeWs : option conn) (l : list conn)
  : list conn :=
  filter (λ c, prunable e excludeWs c) l.

(** The entries a fan-out of [m] over [l] appends to the log. *)
Definition deliveries (e : env) (excludeWs : option conn) (m : jsval)
    (l : list conn) : list (conn * jsval) :=
  (λ c, (c, m)) <$> filter (λ c, deliverable e excludeWs c) l.

(** The members left in the set after a fan-out over [room]. *)
Definition survivors (e : env) (excludeWs : option conn) (room : list conn)
  : list conn :=
  filter (λ c, negb (prunable e excludeWs c)) room.

(** Two states with the same tables and socket properties; only the log
    of sent messages may differ. *)
Definition same_tables (st st' : state) : Prop :=
  rooms st' = rooms st ∧ roomCreators st' = roomCreators st
  ∧ userRooms st' = userRooms st ∧ ws_roomId st' = ws_roomId st
  ∧ ws_username st' = ws_username st.

(** The [type] field of an outgoing message. *)
Definition type_of (m : jsval) : option jsval :=
  match m with
  | JObj fields => obj_get "type" fields
  | _ => None
  end.

(** The binding of [c] to [roomId] is backed by the tables: the room
    exists, [c] is in its set, and [c.roomId] names it. *)
Definition bound_ok (st : state) (c : conn) (roomId : string) : Prop :=
  roomId ≠ "" ∧ prop_roomId st c = Str roomId
  ∧ ∃ room, rooms st !! roomId = Some room ∧ c ∈ room.

(** Every binding of [userRooms] is backed, except possibly that of the
    socket [x] whose turn is in progress. *)
Definition bindings_ok (x : option conn) (st : state) : Prop :=
  ∀ c roomId, x ≠ Some c → userRooms st !! c = Some roomId →
              bound_ok st c roomId.

(** The tables are well formed: a room has a creator record and a creator
    record has a room; room keys and creator names are non-empty strings;
    a member set lists no socket twice. *)
Definition tables_ok (st : state) : Prop :=
  (∀ r, is_Some (rooms st !! r) ↔ is_Some (roomCreators st !! r))
  ∧ (∀ r room, rooms st !! r = Some room → r ≠ "" ∧ NoDup room)
  ∧ (∀ r u, roomCreators st !! r = Some u → u ≠ "").

(** Every bound socket carries a non-empty [username], except possibly
    the socket [x] whose turn is in progress. *)
Definition names_ok (x : option conn) (st : state) : Prop :=
  ∀ c roomId, x ≠ Some c → userRooms st !! c = Some roomId →
              ∃ u, prop_username st c = Str u ∧ u ≠ "".

(** No two sockets of [room] carry the same name. *)
Definition names_distinct (st : state) (room : list conn) : Prop :=
  ∀ c d u, c ∈ room → d ∈ room →
           prop_username st c = Str u → prop_username st d = Str u → c = d.

(** The callback of the [/status] route: the entry reported for one room,
    [{roomId, participantCount: clients.size,
      creator: roomCreators.get(roomId) || 'unknown'}]. *)
Definition status_room (st : state) (roomId : string) (clients : list conn)
  : jsval :=
  JObj [("roomId", JStr roomId);
        ("participantCount", JNum (Z.of_nat (length clients)));
        ("creator",
         JStr (match roomCreators st !! roomId with
               | Some u => if decide (u = "") then "unknown" else u
               | None => "unknown"
               end))].

(** Every member of a member set is bound to that room, and the socket
    [x] whose turn is in progress is in no member set. *)
Definition members_ok (x : option conn) (st : state) : Prop :=
  ∀ r room c, rooms st !! r = Some room → c ∈ room →
              x ≠ Some c ∧ userRooms st !! c = Some r.

(** A turn is tidy when it is not a [leave_room] that names an existing
    room other than the one its sender is bound to. *)
Definition tidy_event (st : state) (ev : event) : Prop :=
  match ev with
  | EvMessage ws (Some m) =>
      msg_type m = Str "leave_room" →
      ∀ r held, truthy (msg_roomId m) = Some r → is_Some (rooms st !! r) →
                userRooms st !! ws = Some held → held = r
  | _ => True
  end.

(** The states the server goes through when every turn is tidy. *)
Inductive reachable_tidy : state → Prop :=
| tidy_initial : reachable_tidy initial
| tidy_turn e ev st :
    reachable_tidy st → tidy_event st ev →
    reachable_tidy (handle_event e ev st).2.

(** In every room the names are pairwise distinct. *)
Definition names_all (st : state) : Prop :=
  ∀ r room, rooms st !! r = Some room → names_distinct st room.

(** From [st] to [st'] no member set gained a socket and no name changed. *)
Definition shrinks (st st' : state) : Prop :=
  (∀ r room', rooms st' !! r = Some room' →
     ∃ room, rooms st !! r = Some room ∧ ∀ c, c ∈ room' → c ∈ room)
  ∧ ws_username st' = ws_username st.

(** A turn is civil when it is tidy and is not a [create_room] for an
    existing room under a name that another member of that room holds. *)
Definition civil_event (st : state) (ev : event) : Prop :=
  tidy_event st ev
  ∧ match ev with
    | EvMessage ws (Some m) =>
        msg_type m = Str "create_room" →
        ∀ r u room, truthy (msg_roomId m) = Some r →
                    truthy (msg_username m) = Some u →
                    rooms st !! r = Some room →
                    name_taken st room ws u = false
    | _ => True
    end.

(** The states the server goes through when every turn is civil. *)
Inductive reachable_civil : state → Prop :=
| civil_initial : reachable_civil initial
| civil_turn e ev st :
    reachable_civil st → civil_event st ev →
    reachable_civil (handle_event e ev st).2.





(** ** Scenarios

    Two sockets, the wire messages they send, and the environments of the
    turns used in the worked examples. *)

Definition alice_ws : conn := 0%nat.
Definition bob_ws : conn := 1%nat.

Definition create_room (roomId username : string) : client_message :=
  {| msg_type := Str "create_room"; msg_roomId := Str roomId;
     msg_username := Str username; msg_message := None |}.

Definition join_room (roomId username : string) : client_message :=
  {| msg_type := Str "join_room"; msg_roomId := Str roomId;
     msg_username := Str username; msg_message := None |}.

Definition leave_room (roomId : jsopt) : client_message :=
  {| msg_type := Str "leave_room"; msg_roomId := roomId;
     msg_username := Undefined; msg_message := None |}.

Definition chat_message (roomId : string) (chatMessage : list (string * jsval))
  : client_message :=
  {| msg_type := Str "chat_message"; msg_roomId := Str roomId;
     msg_username := Undefined; msg_message := Some chatMessage |}.

Definition ping : client_message :=
  {| msg_type := Str "ping"; msg_roomId := Undefined;
     msg_username := Undefined; msg_message := None |}.

(** The turn in which the message [m] of socket [ws] is handled. *)
Definition receives (ws : conn) (m : client_message) : event :=
  EvMessage ws (Some m).

(** Every channel open, no send raises. *)
Definition calm (t : Z) : env :=
  {| now := λ _, t; readyOpen := λ _, true; sendThrows := λ _, false |}.


(** The channel of [c] is open and its [send] raises. *)
Definition throwing_for (c : conn) (t : Z) : env :=
  {| now := λ _, t; readyOpen := λ _, true;
     sendThrows := λ x, bool_decide (x = c) |}.

(** A chat payload whose [author] is the object [{"toString": 1}]. *)
Definition unprintable_payload : list (string * jsval) :=
  [("author", JObj [("toString", JNum 1)]); ("text", JStr "hi")].

(** Alice creates "R1", Bob joins it. *)
Definition two_in_R1 : state :=
  run [(calm 1, receives alice_ws (create_room "R1" "alice"));
       (calm 2, receives bob_ws (join_room "R1" "bob"))] initial.

(** Alice creates "R1" as "alice", and so does Bob. *)
Definition two_alices_in_R1 : state :=
  run [(calm 1, receives alice_ws (create_room "R1" "alice"));
       (calm 2, receives bob_ws (create_room "R1" "alice"))] initial.

(** Alice creates "R1" and is alone in it. *)
Definition alice_in_R1 : state :=
  run [(calm 1, receives alice_ws (create_room "R1" "alice"))] initial.

(** Alice creates "R1", Bob creates "R2". *)
Definition split_rooms : state :=
  run [(calm 1, receives alice_ws (create_room "R1" "alice"));
       (calm 2, receives bob_ws (create_room "R2" "bob"))] initial.


(** * Properties *)

(** ** Logging *)

Lemma log_template_then values (k : cmd) st :
  (log_template values ;; k)%cmd st
  = if existsb toString_throws values then (Threw, st) else k st.
Proof. unfold seq, log_template. by destruct (existsb _ _). Qed.

(** ** What a fan-out does *)

Lemma filter_all {A} (P : A → Prop) `{!∀ x, Decision (P x)} (l : list A) :
  (∀ x, P x) → filter P l = l.
Proof.
  intros HP. induction l as [|x l IH]; [done|].
  rewrite filter_cons_True by done. by rewrite IH.
Qed.

Lemma alter_twice {K A} `{Countable K} (f g : A → A) (i : K) (m : gmap K A) :
  alter f i (alter g i m) = alter (λ x, f (g x)) i m.
Proof.
  apply map_eq. intros j. rewrite !lookup_alter.
  destruct (decide (i = j)) as [->|?]; [|done].
  rewrite decide_True by done. by destruct (m !! j).
Qed.

Lemma pruned_cons e excludeWs c l :
  pruned e excludeWs (c :: l)
  = if prunable e excludeWs c then c :: pruned e excludeWs l
    else pruned e excludeWs l.
Proof.
  unfold pruned. rewrite filter_cons.
  destruct (prunable e excludeWs c); [by rewrite decide_True|].
  by rewrite decide_False by (by intros []).
Qed.

Section fan_out.
Context (e : env) (roomId : string) (m : jsval) (excludeWs : option conn).

Lemma deliver_one_cases client st :
  deliver_one e roomId m excludeWs client st =
    if prunable e excludeWs client then prune roomId client st
    else if deliverable e excludeWs client
         then with_sent (λ l, l ++ [(client, m)]) st
         else st.
Proof.
  unfold deliver_one, prunable, deliverable, ws_send.
  destruct (negb _), (readyOpen e client), (sendThrows e client); done.
Qed.

Lemma forEach_deliver_fixed l st :
  roomCreators (forEach_deliver e roomId m excludeWs l st) = roomCreators st
  ∧ ws_roomId (forEach_deliver e roomId m excludeWs l st) = ws_roomId st
  ∧ ws_username (forEach_deliver e roomId m excludeWs l st) = ws_username st.
Proof.
  revert st. induction l as [|c l IH]; intros st; [done|].
  simpl. destruct (IH (deliver_one e roomId m excludeWs c st)) as (-> & -> & ->).
  rewrite deliver_one_cases.
  destruct (prunable _ _ _); [done|]. by destruct (deliverable _ _ _).
Qed.

Lemma forEach_deliver_sent l st :
  sent (forEach_deliver e roomId m excludeWs l st)
  = sent st ++ deliveries e excludeWs m l.
Proof.
  revert st. induction l as [|c l IH]; intros st.
  - simpl. by rewrite app_nil_r.
  - simpl. rewrite IH, deliver_one_cases. unfold deliveries.
    rewrite filter_cons.
    destruct (prunable e excludeWs c) eqn:Hp.
    + assert (deliverable e excludeWs c = false) as Hd.
      { unfold prunable, deliverable in *.
        destruct (negb _), (readyOpen e c), (sendThrows e c); done. }
      rewrite Hd. by rewrite decide_False by (by intros []).
    + destruct (deliverable e excludeWs c) eqn:Hd.
      * rewrite decide_True by done. simpl. by rewrite <- app_assoc.
      * by rewrite decide_False by (by intros []).
Qed.

Lemma forEach_deliver_rooms l st :
  rooms (forEach_deliver e roomId m excludeWs l st)
  = alter (filter (λ c, c ∉ pruned e excludeWs l)) roomId (rooms st).
Proof.
  revert st. induction l as [|c l IH]; intros st.
  - simpl. symmetry. apply alter_id. intros s _.
    apply filter_all. intros x. unfold pruned.
    rewrite filter_nil. apply not_elem_of_nil.
  - simpl. rewrite IH, deliver_one_cases, pruned_cons.
    destruct (prunable e excludeWs c) eqn:Hp.
    + simpl. rewrite alter_twice.
      apply alter_ext. intros s _. simpl. unfold set_delete.
      rewrite list_filter_filter. apply list_filter_iff.
      intros x. rewrite not_elem_of_cons. tauto.
    + by destruct (deliverable e excludeWs c).
Qed.

Lemma forEach_deliver_userRooms l st c :
  userRooms (forEach_deliver e roomId m excludeWs l st) !! c
  = if decide (c ∈ pruned e excludeWs l) then None else userRooms st !! c.
Proof.
  revert st. induction l as [|a l IH]; intros st.
  - change (pruned e excludeWs []) with (@nil conn).
    destruct (decide (c ∈ [])) as [Hin|_]; [by apply elem_of_nil in Hin|done].
  - simpl. rewrite IH, deliver_one_cases, pruned_cons.
    destruct (prunable e excludeWs a) eqn:Hp.
    + simpl.
      destruct (decide (c ∈ pruned e excludeWs l)) as [Hin|Hin].
      * rewrite decide_True by (by right). done.
      * destruct (decide (c = a)) as [->|Hne].
        -- rewrite decide_True by (by left). apply lookup_delete_eq.
        -- rewrite decide_False by (rewrite not_elem_of_cons; done).
           by apply lookup_delete_ne.
    + by destruct (deliverable e excludeWs a).
Qed.
End fan_out.

Lemma filter_ext_elem {A} (P Q : A → Prop) `{!∀ x, Decision (P x)}
    `{!∀ x, Decision (Q x)} (l : list A) :
  (∀ x, x ∈ l → P x ↔ Q x) → filter P l = filter Q l.
Proof.
  induction l as [|a l IH]; intros HPQ; [done|].
  rewrite !filter_cons.
  rewrite IH by (intros x Hx; apply HPQ; by right).
  apply decide_ext, HPQ. by left.
Qed.


Lemma alter_present {K A} `{Countable K} (f : A → A) (i : K) (m : gmap K A) x :
  m !! i = Some x → alter f i m = <[i := f x]> m.
Proof.
  intros Hx. apply map_eq. intros j. rewrite lookup_alter, lookup_insert.
  destruct (decide (i = j)) as [->|?]; [|done]. by rewrite Hx.
Qed.

Section broadcast.
Context (e : env) (roomId : string) (m : jsval) (excludeWs : option conn).

Lemma broadcast_completion st :
  (broadcastToRoom e roomId m excludeWs st).1 = Normal.
Proof. unfold broadcastToRoom. by destruct (rooms st !! roomId). Qed.

Lemma broadcast_absent st :
  rooms st !! roomId = None →
  broadcastToRoom e roomId m excludeWs st = (Normal, st).
Proof. unfold broadcastToRoom. by intros ->. Qed.

Lemma broadcast_present st room :
  rooms st !! roomId = Some room →
  broadcastToRoom e roomId m excludeWs st
  = (Normal, forEach_deliver e roomId m excludeWs room st).
Proof. unfold broadcastToRoom. by intros ->. Qed.

Lemma broadcast_fixed st :
  roomCreators (broadcastToRoom e roomId m excludeWs st).2 = roomCreators st
  ∧ ws_roomId (broadcastToRoom e roomId m excludeWs st).2 = ws_roomId st
  ∧ ws_username (broadcastToRoom e roomId m excludeWs st).2 = ws_username st.
Proof.
  unfold broadcastToRoom. destruct (rooms st !! roomId); [|done].
  apply forEach_deliver_fixed.
Qed.

Lemma broadcast_rooms st room :
  rooms st !! roomId = Some room →
  rooms (broadcastToRoom e roomId m excludeWs st).2
  = <[roomId := survivors e excludeWs room]> (rooms st).
Proof.
  intros Hroom. rewrite (broadcast_present _ _ Hroom). simpl.
  rewrite forEach_deliver_rooms, (alter_present _ _ _ _ Hroom).
  f_equal. apply filter_ext_elem. intros c Hc. unfold pruned.
  rewrite list_elem_of_filter. destruct (prunable e excludeWs c); simpl; tauto.
Qed.

Lemma broadcast_userRooms st room c :
  rooms st !! roomId = Some room →
  userRooms (broadcastToRoom e roomId m excludeWs st).2 !! c
  = if decide (c ∈ pruned e excludeWs room) then None
    else userRooms st !! c.
Proof.
  intros Hroom. rewrite (broadcast_present _ _ Hroom). simpl.
  apply forEach_deliver_userRooms.
Qed.

Lemma broadcast_sent st room :
  rooms st !! roomId = Some room →
  sent (broadcastToRoom e roomId m excludeWs st).2
  = sent st ++ deliveries e excludeWs m room.
Proof.
  intros Hroom. rewrite (broadcast_present _ _ Hroom). simpl.
  apply forEach_deliver_sent.
Qed.
End broadcast.

Lemma elem_of_pruned e excludeWs room c :
  c ∈ pruned e excludeWs room ↔ prunable e excludeWs c ∧ c ∈ room.
Proof. unfold pruned. by rewrite list_elem_of_filter. Qed.

Lemma elem_of_survivors e excludeWs room c :
  c ∈ survivors e excludeWs room ↔ ¬ prunable e excludeWs c ∧ c ∈ room.
Proof.
  unfold survivors. rewrite list_elem_of_filter.
  destruct (prunable e excludeWs c); simpl; tauto.
Qed.

Lemma elem_of_deliveries e excludeWs m room c m' :
  (c, m') ∈ deliveries e excludeWs m room
  ↔ m' = m ∧ deliverable e excludeWs c ∧ c ∈ room.
Proof.
  unfold deliveries. rewrite list_elem_of_fmap. split.
  - intros (c' & Heq & Hin). apply list_elem_of_filter in Hin.
    inversion Heq; subst. tauto.
  - intros (-> & Hd & Hin). exists c. split; [done|].
    by apply list_elem_of_filter.
Qed.

Lemma deliverable_not_excluded e c : deliverable e (Some c) c = false.
Proof. unfold deliverable. by rewrite bool_decide_true. Qed.

Lemma prunable_not_excluded e c : prunable e (Some c) c = false.
Proof. unfold prunable. by rewrite bool_decide_true. Qed.


(** ** The reaper *)

Lemma reap_entries_rooms (l : list (string * list conn)) st r :
  rooms (foldr reap_entry st l) !! r
  = if decide ((r, []) ∈ l) then None else rooms st !! r.
Proof.
  induction l as [|[k v] l IH].
  - cbn [foldr]. by rewrite decide_False by apply not_elem_of_nil.
  - cbn [foldr]. unfold reap_entry at 1. cbn [fst snd].
    destruct (decide (length v = 0%nat)) as [Hv|Hv].
    + apply length_zero_iff_nil in Hv as ->. simpl.
      destruct (decide (k = r)) as [->|Hne].
      * rewrite lookup_delete_eq. by rewrite decide_True by (by left).
      * rewrite lookup_delete_ne, IH by done.
        apply decide_ext. rewrite elem_of_cons.
        split; [tauto|]. intros [Heq|?]; [congruence|done].
    + rewrite IH. apply decide_ext. rewrite elem_of_cons.
      split; [tauto|]. intros [Heq|?]; [|done].
      inversion Heq; subst. done.
Qed.

Lemma reap_entries_creators (l : list (string * list conn)) st r :
  roomCreators (foldr reap_entry st l) !! r
  = if decide ((r, []) ∈ l) then None else roomCreators st !! r.
Proof.
  induction l as [|[k v] l IH].
  - cbn [foldr]. by rewrite decide_False by apply not_elem_of_nil.
  - cbn [foldr]. unfold reap_entry at 1. cbn [fst snd].
    destruct (decide (length v = 0%nat)) as [Hv|Hv].
    + apply length_zero_iff_nil in Hv as ->. simpl.
      destruct (decide (k = r)) as [->|Hne].
      * rewrite lookup_delete_eq. by rewrite decide_True by (by left).
      * rewrite lookup_delete_ne, IH by done.
        apply decide_ext. rewrite elem_of_cons.
        split; [tauto|]. intros [Heq|?]; [congruence|done].
    + rewrite IH. apply decide_ext. rewrite elem_of_cons.
      split; [tauto|]. intros [Heq|?]; [|done].
      inversion Heq; subst. done.
Qed.

Lemma reap_entries_fixed (l : list (string * list conn)) st :
  userRooms (foldr reap_entry st l) = userRooms st
  ∧ ws_roomId (foldr reap_entry st l) = ws_roomId st
  ∧ ws_username (foldr reap_entry st l) = ws_username st
  ∧ sent (foldr reap_entry st l) = sent st.
Proof.
  induction l as [|[k v] l IH]; [done|].
  cbn [foldr]. unfold reap_entry.
  destruct (decide (length (k, v).2 = 0%nat)); [|done]. exact IH.
Qed.

Lemma reaper_rooms st r :
  rooms (reaper st) !! r
  = if decide (rooms st !! r = Some (@nil conn)) then None else rooms st !! r.
Proof.
  unfold reaper. rewrite reap_entries_rooms.
  pose proof (elem_of_map_to_list (rooms st) r []) as Hiff.
  destruct (decide ((r, []) ∈ map_to_list (rooms st)));
    destruct (decide (rooms st !! r = Some [])); tauto.
Qed.

Lemma reaper_creators st r :
  roomCreators (reaper st) !! r
  = if decide (rooms st !! r = Some (@nil conn)) then None else roomCreators st !! r.
Proof.
  unfold reaper. rewrite reap_entries_creators.
  pose proof (elem_of_map_to_list (rooms st) r []) as Hiff.
  destruct (decide ((r, []) ∈ map_to_list (rooms st)));
    destruct (decide (rooms st !! r = Some [])); tauto.
Qed.


(** ** Replies *)

Lemma ws_send_same_tables e ws m st : same_tables st (ws_send e ws m st).2.
Proof. unfold ws_send. by destruct (sendThrows e ws). Qed.

Lemma ws_send_ok e ws m st :
  sendThrows e ws = false →
  ws_send e ws m st = (Normal, with_sent (λ l, l ++ [(ws, m)]) st).
Proof. unfold ws_send. by intros ->. Qed.


(** ** join_room *)

Lemma name_taken_true st room ws username :
  name_taken st room ws username = true
  ↔ ∃ other, other ∈ room ∧ other ≠ ws
             ∧ prop_username st other = Str username.
Proof.
  unfold name_taken. rewrite existsb_exists. split.
  - intros (c & Hin & Hc). apply andb_prop in Hc as [Hname Hne].
    apply bool_decide_eq_true in Hname. apply negb_true_iff in Hne.
    apply bool_decide_eq_false in Hne. exists c.
    by rewrite list_elem_of_In.
  - intros (c & Hin & Hne & Hname). exists c.
    rewrite <- list_elem_of_In. split; [done|].
    by rewrite bool_decide_true, bool_decide_false by done.
Qed.

Lemma name_taken_false st room ws username :
  name_taken st room ws username = false
  ↔ ∀ other, other ∈ room → prop_username st other = Str username →
             other = ws.
Proof.
  rewrite <- not_true_iff_false, name_taken_true. split.
  - intros Hno c Hin Hname. destruct (decide (c = ws)); [done|].
    exfalso. apply Hno. by exists c.
  - intros Hall (c & Hin & Hne & Hname). by apply Hne, Hall.
Qed.

Local Ltac nothing_sent :=
  exists []; rewrite app_nil_r;
  split; [done|]; split; [done|]; split; [done|];
  by intros ?? ?%elem_of_nil.

(** The block that leaves the previous room never raises, leaves the set
    of the target room alone, and sends nothing but [user_left]. *)
Lemma leave_previous_join_effect e ws roomId username st :
  ∃ pre,
    (leave_previous_join e ws roomId username st).1 = Normal
    ∧ rooms (leave_previous_join e ws roomId username st).2 !! roomId
      = rooms st !! roomId
    ∧ sent (leave_previous_join e ws roomId username st).2 = sent st ++ pre
    ∧ ∀ c m, (c, m) ∈ pre → c ≠ ws ∧ type_of m = Some (JStr "user_left").
Proof.
  unfold leave_previous_join.
  destruct (userRooms st !! ws) as [prev|];
    [|nothing_sent].
  destruct (rooms st !! prev) as [proom|] eqn:Hprev;
    [|nothing_sent].
  destruct (decide (prev = roomId)) as [->|Hne];
    [nothing_sent|].
  set (st0 := with_rooms (alter (set_delete ws) prev) st).
  assert (rooms st0 !! prev = Some (set_delete ws proom)) as Hst0.
  { unfold st0. simpl. rewrite lookup_alter, decide_True by done.
    by rewrite Hprev. }
  exists (deliveries e (Some ws) (user_left_switch_msg prev username e)
            (set_delete ws proom)).
  split; [apply broadcast_completion|]. split; [|split].
  - rewrite (broadcast_rooms _ _ _ _ _ _ Hst0), lookup_insert_ne by done.
    unfold st0. simpl. by rewrite lookup_alter_ne.
  - by rewrite (broadcast_sent _ _ _ _ _ _ Hst0).
  - intros c m (-> & Hd & _)%elem_of_deliveries. split; [|done].
    intros ->. by rewrite deliverable_not_excluded in Hd.
Qed.

(** A join that passes both checks, step by step. *)
Lemma handleJoinRoom_accepted e ws message st roomId username room :
  truthy (msg_roomId message) = Some roomId →
  truthy (msg_username message) = Some username →
  rooms st !! roomId = Some room →
  name_taken st room ws username = false →
  let st1 := (leave_previous_join e ws roomId username st).2 in
  let st2 := bind_socket ws roomId username
               (with_rooms (alter (set_add ws) roomId) st1) in
  rooms st2 !! roomId = Some (set_add ws room)
  ∧ handleJoinRoom e ws message st
    = if sendThrows e ws then (Threw, st2)
      else broadcastToRoom e roomId
             (user_joined_msg roomId username e (length (set_add ws room)))
             (Some ws)
             (with_sent (λ l, l ++ [(ws, join_success_msg roomId username e
                                           (length (set_add ws room)))]) st2).
Proof.
  intros Hr Hu Hroom Hfree st1 st2.
  destruct (leave_previous_join_effect e ws roomId username st)
    as (pre & Hnormal & Hrooms & _).
  fold st1 in Hnormal, Hrooms.
  assert (rooms st2 !! roomId = Some (set_add ws room)) as Hst2.
  { unfold st2. simpl. rewrite lookup_alter, decide_True by done.
    by rewrite Hrooms, Hroom. }
  split; [done|].
  unfold handleJoinRoom. rewrite Hr, Hu, Hroom, Hfree. unfold seq.
  destruct (leave_previous_join e ws roomId username st) as [k s] eqn:Hlp.
  simpl in Hnormal. subst k. unfold add_member. fold st2.
  change s with st1. fold st2.
  unfold room_size. rewrite Hst2. simpl.
  unfold ws_send. destruct (sendThrows e ws); [done|].
  change (rooms (with_sent ?f st2)) with (rooms st2).
  by rewrite Hst2.
Qed.

Lemma deliveries_excluded e ws m room c m' :
  (c, m') ∈ deliveries e (Some ws) m room →
  c ≠ ws ∧ m' = m ∧ c ∈ room ∧ readyOpen e c = true ∧ sendThrows e c = false.
Proof.
  intros (-> & Hd & Hin)%elem_of_deliveries.
  split; [intros ->; by rewrite deliverable_not_excluded in Hd|].
  unfold deliverable in Hd.
  destruct (readyOpen e c), (sendThrows e c);
    rewrite ?andb_false_r in Hd; try done.
Qed.

Lemma elem_of_set_add c ws room : c ∈ set_add ws room ↔ c = ws ∨ c ∈ room.
Proof.
  unfold set_add. destruct (decide (ws ∈ room)).
  - split; [tauto|]. by intros [->|?].
  - rewrite elem_of_app, list_elem_of_singleton. tauto.
Qed.

Lemma set_add_present ws room : ws ∈ room → set_add ws room = room.
Proof. intros. unfold set_add. by rewrite decide_True. Qed.

Lemma elem_of_set_delete c ws room : c ∈ set_delete ws room ↔ c ≠ ws ∧ c ∈ room.
Proof. unfold set_delete. by rewrite list_elem_of_filter. Qed.

(** What an accepted join appends to the log. *)
Lemma handleJoinRoom_accepted_sent e ws message st roomId username room :
  truthy (msg_roomId message) = Some roomId →
  truthy (msg_username message) = Some username →
  rooms st !! roomId = Some room →
  name_taken st room ws username = false →
  ∃ pre,
    (∀ c m, (c, m) ∈ pre → c ≠ ws ∧ type_of m = Some (JStr "user_left"))
    ∧ sent (handleJoinRoom e ws message st).2
      = sent st ++ pre ++
        (if sendThrows e ws then []
         else (ws, join_success_msg roomId username e
                     (length (set_add ws room)))
              :: deliveries e (Some ws)
                   (user_joined_msg roomId username e
                      (length (set_add ws room)))
                   (set_add ws room))
    ∧ (handleJoinRoom e ws message st).1
      = if sendThrows e ws then Threw else Normal.
Proof.
  intros Hr Hu Hroom Hfree.
  destruct (handleJoinRoom_accepted e ws message st roomId username room
              Hr Hu Hroom Hfree) as [Hst2 ->].
  destruct (leave_previous_join_effect e ws roomId username st)
    as (pre & _ & _ & Hsent & Hpre).
  exists pre. split; [done|].
  destruct (sendThrows e ws).
  - simpl. by rewrite Hsent, app_nil_r.
  - rewrite broadcast_completion. split; [|done].
    erewrite broadcast_sent by exact Hst2. simpl.
    rewrite Hsent. by rewrite <- !app_assoc.
Qed.

(** C3: a join of a room that does not exist only answers [join_error]
    ("Room not found"), a join under a name held by another member of the
    room only answers [join_error] ("Username already taken in this
    room"), and neither changes a table or a socket property.  A member
    that sends its own name again is not turned away on account of its
    own entry: when no other member holds the name, the one message it
    gets is [join_success] with the size of the room. *)
Theorem join_room_rejections e ws message st roomId username :
  truthy (msg_roomId message) = Some roomId →
  truthy (msg_username message) = Some username →
  (rooms st !! roomId = None →
     handleJoinRoom e ws message st
     = ws_send e ws
         (JObj [("type", JStr "join_error");
                ("message", JStr "Room not found");
                ("roomId", JStr roomId);
                ("timestamp", JNum (now e AtJoinError))]) st
     ∧ same_tables st (handleJoinRoom e ws message st).2)
  ∧ (∀ room other,
       rooms st !! roomId = Some room →
       other ∈ room → other ≠ ws → prop_username st other = Str username →
       handleJoinRoom e ws message st
       = ws_send e ws
           (JObj [("type", JStr "join_error");
                  ("message", JStr "Username already taken in this room");
                  ("roomId", JStr roomId);
                  ("timestamp", JNum (now e AtJoinError))]) st
       ∧ same_tables st (handleJoinRoom e ws message st).2)
  ∧ (∀ room,
       rooms st !! roomId = Some room →
       ws ∈ room → prop_username st ws = Str username →
       (∀ other, other ∈ room → other ≠ ws →
                 prop_username st other ≠ Str username) →
       sendThrows e ws = false →
       ∃ new,
         sent (handleJoinRoom e ws message st).2 = sent st ++ new
         ∧ (ws, JObj [("type", JStr "join_success");
                      ("roomId", JStr roomId);
                      ("username", JStr username);
                      ("timestamp", JNum (now e AtJoinSuccess));
                      ("message", JStr "Successfully joined room");
                      ("participantCount", JNum (Z.of_nat (length room)))])
           ∈ new
         ∧ ∀ m, (ws, m) ∈ new →
                m = JObj [("type", JStr "join_success");
                          ("roomId", JStr roomId);
                          ("username", JStr username);
                          ("timestamp", JNum (now e AtJoinSuccess));
                          ("message", JStr "Successfully joined room");
                          ("participantCount",
                           JNum (Z.of_nat (length room)))]).
Proof.
  intros Hr Hu. split; [|split].
  - intros Habsent.
    assert (handleJoinRoom e ws message st
            = ws_send e ws (join_error_msg "Room not found" roomId e) st) as ->.
    { unfold handleJoinRoom. by rewrite Hr, Hu, Habsent. }
    split; [done|apply ws_send_same_tables].
  - intros room other Hroom Hin Hne Hname.
    assert (name_taken st room ws username = true) as Htaken.
    { apply name_taken_true. by exists other. }
    assert (handleJoinRoom e ws message st
            = ws_send e ws
                (join_error_msg "Username already taken in this room"
                   roomId e) st) as ->.
    { unfold handleJoinRoom. by rewrite Hr, Hu, Hroom, Htaken. }
    split; [done|apply ws_send_same_tables].
  - intros room Hroom Hin Hown Hothers Hsend.
    assert (name_taken st room ws username = false) as Hfree.
    { apply name_taken_false. intros c Hc Hname.
      destruct (decide (c = ws)); [done|]. by destruct (Hothers c). }
    destruct (handleJoinRoom_accepted_sent e ws message st roomId username
                room Hr Hu Hroom Hfree) as (pre & Hpre & Hsent & _).
    rewrite Hsend, (set_add_present _ _ Hin) in Hsent.
    eexists. split; [exact Hsent|]. split.
    + apply elem_of_app. right. by left.
    + intros m [Hm|Hm]%elem_of_app.
      * by destruct (Hpre _ _ Hm).
      * apply elem_of_cons in Hm as [Hm|Hm];
          [by injection Hm as ->|].
        by destruct (deliveries_excluded _ _ _ _ _ _ Hm).
Qed.


(** ** chat_message *)

Lemma obj_get_set_eq k v o : obj_get k (obj_set k v o) = Some v.
Proof.
  induction o as [|[k' v'] o IH]; simpl.
  - by rewrite decide_True.
  - destruct (decide (k' = k)) as [->|Hne]; simpl.
    + by rewrite decide_True.
    + by rewrite decide_False.
Qed.

Lemma obj_get_set_ne k k' v o :
  k ≠ k' → obj_get k' (obj_set k v o) = obj_get k' o.
Proof.
  intros Hne. induction o as [|[k0 v0] o IH]; simpl.
  - by rewrite decide_False.
  - destruct (decide (k0 = k)) as [->|Hk0]; simpl.
    + by rewrite !decide_False.
    + by rewrite IH.
Qed.

(** The payload that is relayed: the fields of the original one, with
    [serverTimestamp] and [roomId] written by the server. *)
Lemma enhancedMessage_fields chatMessage roomId e :
  obj_get "serverTimestamp" (enhancedMessage chatMessage roomId e)
  = Some (JNum (now e AtServerTimestamp))
  ∧ obj_get "roomId" (enhancedMessage chatMessage roomId e)
    = Some (JStr roomId)
  ∧ ∀ k, k ≠ "serverTimestamp" → k ≠ "roomId" →
         obj_get k (enhancedMessage chatMessage roomId e)
         = obj_get k chatMessage.
Proof.
  unfold enhancedMessage. split; [|split].
  - by rewrite obj_get_set_ne, obj_get_set_eq.
  - by rewrite obj_get_set_eq.
  - intros k H1 H2. by rewrite !obj_get_set_ne.
Qed.

(** A chat message of a member: the log line comes first, the fan-out
    after it. *)
Lemma handleChatMessage_member e ws message st roomId chatMessage room :
  truthy (msg_roomId message) = Some roomId →
  msg_message message = Some chatMessage →
  rooms st !! roomId = Some room → ws ∈ room →
  handleChatMessage e ws message st
  = if toString_throws (author_of chatMessage) then (Threw, st)
    else broadcastToRoom e roomId (chat_message_msg roomId chatMessage e)
           (Some ws) st.
Proof.
  intros Hr Hm Hroom Hin. unfold handleChatMessage.
  rewrite Hr, Hm, Hroom. unfold set_has. rewrite bool_decide_true by done.
  rewrite log_template_then. simpl. by rewrite orb_false_r.
Qed.

(** C7: Alice and Bob are in "R1" and every channel is open.  Alice
    sends a chat message whose [author] is the object [{"toString": 1}].
    The log line of [handleChatMessage] raises before the fan-out: the
    handler throws and leaves the state as it was, the listener answers
    Alice with [error] ("Invalid message format"), and Bob, a member whose
    channel is open and whose [send] works, is sent nothing. *)
Theorem chat_with_unprintable_author_is_not_relayed :
  rooms two_in_R1 !! "R1" = Some [alice_ws; bob_ws]
  ∧ readyOpen (calm 3) bob_ws = true ∧ sendThrows (calm 3) bob_ws = false
  ∧ handleChatMessage (calm 3) alice_ws
      (chat_message "R1" unprintable_payload) two_in_R1
    = (Threw, two_in_R1)
  ∧ on_message (calm 3) alice_ws
      (Some (chat_message "R1" unprintable_payload)) two_in_R1
    = (Normal,
       with_sent
         (λ l, l ++ [(alice_ws,
                      JObj [("type", JStr "error");
                            ("message", JStr "Invalid message format");
                            ("timestamp", JNum 3)])]) two_in_R1).
Proof.
  assert (rooms two_in_R1 !! "R1" = Some [alice_ws; bob_ws]) as Hroom
    by (vm_compute; reflexivity).
  assert (handleChatMessage (calm 3) alice_ws
            (chat_message "R1" unprintable_payload) two_in_R1
          = (Threw, two_in_R1)) as Hthrew.
  { rewrite (handleChatMessage_member _ _ _ _ "R1" unprintable_payload
               [alice_ws; bob_ws]); [done|done|done|exact Hroom|].
    apply list_elem_of_here. }
  split; [exact Hroom|]. split; [done|]. split; [done|].
  split; [exact Hthrew|].
  unfold on_message, handleMessage.
  change (msg_type (chat_message "R1" unprintable_payload))
    with (Str "chat_message").
  cbv match. rewrite Hthrew. reflexivity.
Qed.

(** ** leave_room and disconnect *)


Lemma remove_socket_rooms ws roomId st room :
  rooms st !! roomId = Some room →
  rooms (remove_socket ws roomId st) = <[roomId := set_delete ws room]> (rooms st).
Proof. intros Hroom. unfold remove_socket. simpl. by apply alter_present. Qed.

(** A leave whose room resolves to an existing one, step by step. *)
Lemma handleLeaveRoom_resolved e ws message st roomId room :
  truthy (js_or (msg_roomId message) (prop_roomId st ws)) = Some roomId →
  rooms st !! roomId = Some room →
  handleLeaveRoom e ws message st
  = ws_send e ws (leave_success_msg roomId e)
      (with_props ws Null Null
         (broadcastToRoom e roomId
            (user_left_msg roomId (prop_username st ws) e
               (length (set_delete ws room))) None
            (remove_socket ws roomId st)).2).
Proof.
  intros Hr Hroom. unfold handleLeaveRoom. rewrite Hr, Hroom.
  unfold seq, room_size.
  rewrite (remove_socket_rooms _ _ _ _ Hroom), lookup_insert_eq. simpl.
  pose proof (broadcast_completion e roomId
    (user_left_msg roomId (prop_username st ws) e
       (length (set_delete ws room))) None
    (with_userRooms (delete ws)
       (with_rooms (alter (set_delete ws) roomId) st))) as Hdone.
  fold (remove_socket ws roomId st) in *.
  destruct (broadcastToRoom _ _ _ _ _) as [k s]. simpl in *. by subst k.
Qed.

Lemma truthy_Str roomId : roomId ≠ "" → truthy (Str roomId) = Some roomId.
Proof. intros. unfold truthy. by rewrite decide_False. Qed.

Lemma truthy_Some x roomId : truthy x = Some roomId → x = Str roomId ∧ roomId ≠ "".
Proof.
  unfold truthy. destruct x as [| |s]; try done.
  destruct (decide (s = "")); [done|]. by intros [= ->].
Qed.


(** ** Bindings are backed by member sets

    One half of the agreement between [userRooms] and [rooms] survives
    every turn: a socket bound to a room is in the set of that room. *)

Lemma bindings_ok_same_tables x st st' :
  same_tables st st' → bindings_ok x st → bindings_ok x st'.
Proof.
  intros (Hr & _ & Hu & Hid & _) Hok c roomId Hx Hc.
  rewrite Hu in Hc. destruct (Hok c roomId Hx Hc) as (? & ? & ?).
  unfold bound_ok, prop_roomId. by rewrite Hr, Hid.
Qed.

Lemma bindings_ok_weaken x st : bindings_ok None st → bindings_ok x st.
Proof. intros Hok c roomId _ Hc. by apply Hok. Qed.

Lemma bindings_ok_unbound ws st :
  bindings_ok (Some ws) st → userRooms st !! ws = None → bindings_ok None st.
Proof.
  intros Hok Hfree c roomId _ Hc. apply Hok; [|done]. congruence.
Qed.

Lemma broadcast_bindings_ok x e roomId m excludeWs st :
  bindings_ok x st → bindings_ok x (broadcastToRoom e roomId m excludeWs st).2.
Proof.
  intros Hok. destruct (rooms st !! roomId) as [room|] eqn:Hroom;
    [|by rewrite broadcast_absent].
  intros c r Hx Hc.
  rewrite (broadcast_userRooms _ _ _ _ _ _ _ Hroom) in Hc.
  destruct (decide (c ∈ pruned e excludeWs room)) as [|Hkept]; [done|].
  destruct (Hok c r Hx Hc) as (Hne & Hid & room0 & Hroom0 & Hin).
  destruct (broadcast_fixed e roomId m excludeWs st) as (_ & Hrid & _).
  split; [done|]. split; [unfold prop_roomId in *; by rewrite Hrid|].
  rewrite (broadcast_rooms _ _ _ _ _ _ Hroom).
  destruct (decide (roomId = r)) as [->|Hdiff].
  - rewrite lookup_insert_eq. eexists. split; [done|].
    assert (room0 = room) as -> by congruence.
    apply elem_of_survivors. split; [|done].
    intros Hp. apply Hkept, elem_of_pruned. done.
  - rewrite lookup_insert_ne by done. eauto.
Qed.

Lemma unlist_bindings_ok ws roomId st :
  bindings_ok (Some ws) st →
  bindings_ok (Some ws) (with_rooms (alter (set_delete ws) roomId) st).
Proof.
  intros Hok c r Hx Hc. simpl in Hc.
  destruct (Hok c r Hx Hc) as (Hne & Hid & room & Hroom & Hin).
  split; [done|]. split; [done|]. simpl.
  rewrite lookup_alter. destruct (decide (roomId = r)) as [->|_]; [|eauto].
  rewrite Hroom. eexists. split; [done|].
  apply elem_of_set_delete. split; [congruence|done].
Qed.

Lemma bind_bindings_ok ws roomId username st room :
  bindings_ok (Some ws) st → rooms st !! roomId = Some room → roomId ≠ "" →
  bindings_ok None
    (bind_socket ws roomId username
       (with_rooms (alter (set_add ws) roomId) st)).
Proof.
  intros Hok Hroom Hne c r _ Hc. simpl in Hc.
  unfold bound_ok, prop_roomId. simpl.
  destruct (decide (ws = c)) as [->|Hdiff].
  - rewrite lookup_insert_eq in Hc. injection Hc as <-.
    rewrite lookup_insert_eq. split; [done|]. split; [done|].
    rewrite lookup_alter, decide_True, Hroom by done.
    eexists. split; [done|]. apply elem_of_set_add. by left.
  - rewrite lookup_insert_ne in Hc by done.
    destruct (Hok c r) as (Hr & Hid & room0 & Hroom0 & Hin);
      [congruence|done|].
    rewrite lookup_insert_ne by done.
    split; [done|]. split; [done|].
    rewrite lookup_alter. destruct (decide (roomId = r)) as [->|_]; [|eauto].
    rewrite Hroom0. eexists. split; [done|]. apply elem_of_set_add. by right.
Qed.

Lemma remove_socket_bindings_ok ws roomId st :
  bindings_ok (Some ws) st → bindings_ok None (remove_socket ws roomId st).
Proof.
  intros Hok c r _ Hc. unfold remove_socket in *. simpl in Hc.
  destruct (decide (ws = c)) as [->|Hdiff];
    [by rewrite lookup_delete_eq in Hc|].
  rewrite lookup_delete_ne in Hc by done.
  assert (bindings_ok (Some ws)
            (with_rooms (alter (set_delete ws) roomId) st)) as Hok'
    by by apply unlist_bindings_ok.
  destruct (Hok' c r) as (? & ? & ?); [congruence|done|]. done.
Qed.

Lemma clear_props_bindings_ok ws a b st :
  bindings_ok None st → userRooms st !! ws = None →
  bindings_ok None (with_props ws a b st).
Proof.
  intros Hok Hfree c r _ Hc. simpl in Hc.
  destruct (Hok c r) as (Hne & Hid & Hroom); [done|done|].
  split; [done|]. split; [|done].
  unfold prop_roomId in *. simpl.
  rewrite lookup_insert_ne; [done|]. congruence.
Qed.

Lemma ensure_room_bindings_ok x roomId username st :
  bindings_ok x st → bindings_ok x (ensure_room roomId username st).2.
Proof.
  intros Hok. unfold ensure_room.
  destruct (rooms st !! roomId) eqn:Hroom; [done|].
  intros c r Hx Hc. simpl in Hc.
  destruct (Hok c r Hx Hc) as (Hne & Hid & room & Hr & Hin).
  split; [done|]. split; [done|]. simpl.
  rewrite lookup_insert_ne by congruence. eauto.
Qed.

Lemma reaper_fixed st :
  userRooms (reaper st) = userRooms st ∧ ws_roomId (reaper st) = ws_roomId st
  ∧ ws_username (reaper st) = ws_username st ∧ sent (reaper st) = sent st.
Proof. apply reap_entries_fixed. Qed.

Lemma reaper_bindings_ok st : bindings_ok None st → bindings_ok None (reaper st).
Proof.
  intros Hok c r _ Hc. destruct (reaper_fixed st) as (Hu & Hid & _).
  rewrite Hu in Hc. destruct (Hok c r) as (Hne & Hrid & room & Hroom & Hin);
    [done|done|].
  split; [done|]. split; [unfold prop_roomId in *; by rewrite Hid|].
  exists room. split; [|done]. rewrite reaper_rooms, Hroom.
  rewrite decide_False; [done|]. intros [= ->]. by apply elem_of_nil in Hin.
Qed.

(** ** create_room *)

(** The block of [handleCreateRoom] that leaves the previous room: it
    never raises, deletes no room, keeps in every set the members other
    than [ws] that it does not prune, and sends nothing but [user_left]. *)
Lemma leave_previous_create_effect e ws username st :
  ∃ pre,
    (leave_previous_create e ws username st).1 = Normal
    ∧ (∀ r room, rooms st !! r = Some room →
         ∃ room2,
           rooms (leave_previous_create e ws username st).2 !! r = Some room2
           ∧ (∀ c, c ∈ room → c ≠ ws → prunable e (Some ws) c = false →
                   c ∈ room2))
    ∧ roomCreators (leave_previous_create e ws username st).2
      = roomCreators st
    ∧ sent (leave_previous_create e ws username st).2 = sent st ++ pre
    ∧ (∀ c m, (c, m) ∈ pre → c ≠ ws ∧ type_of m = Some (JStr "user_left"))
    ∧ (bindings_ok None st →
       bindings_ok (Some ws) (leave_previous_create e ws username st).2).
Proof.
  unfold leave_previous_create.
  assert (∀ P : Prop, P → ∃ pre : list (conn * jsval),
            (Normal, st).1 = Normal
            ∧ (∀ r room, rooms st !! r = Some room →
                 ∃ room2, rooms (Normal, st).2 !! r = Some room2
                   ∧ (∀ c, c ∈ room → c ≠ ws →
                           prunable e (Some ws) c = false → c ∈ room2))
            ∧ roomCreators (Normal, st).2 = roomCreators st
            ∧ sent (Normal, st).2 = sent st ++ pre
            ∧ (∀ c m, (c, m) ∈ pre →
                 c ≠ ws ∧ type_of m = Some (JStr "user_left"))
            ∧ (bindings_ok None st → bindings_ok (Some ws) (Normal, st).2))
    as Hsame.
  { intros _ _. exists []. rewrite app_nil_r. simpl.
    split; [done|]. split; [by eauto|]. split; [done|]. split; [done|].
    split; [by intros ?? ?%elem_of_nil|]. apply bindings_ok_weaken. }
  destruct (userRooms st !! ws) as [prev|]; [|by apply (Hsame True)].
  destruct (rooms st !! prev) as [proom|] eqn:Hprev; [|by apply (Hsame True)].
  clear Hsame.
  set (st0 := with_rooms (alter (set_delete ws) prev) st).
  set (m := user_left_switch_msg prev username e).
  assert (rooms st0 !! prev = Some (set_delete ws proom)) as Hst0.
  { unfold st0. simpl. rewrite lookup_alter, decide_True by done.
    by rewrite Hprev. }
  exists (deliveries e (Some ws) m (set_delete ws proom)).
  split; [apply broadcast_completion|].
  split; [|split; [|split; [|split]]].
  - intros r room Hroom. rewrite (broadcast_rooms _ _ _ _ _ _ Hst0).
    destruct (decide (prev = r)) as [->|Hne].
    + rewrite lookup_insert_eq. eexists. split; [done|].
      intros c Hc Hws Hp. apply elem_of_survivors.
      rewrite Hp. split; [by intros []|].
      apply elem_of_set_delete. split; [done|]. congruence.
    + rewrite lookup_insert_ne by done. unfold st0. simpl.
      rewrite lookup_alter_ne by done. eauto.
  - by destruct (broadcast_fixed e prev m (Some ws) st0) as (-> & _).
  - by rewrite (broadcast_sent _ _ _ _ _ _ Hst0).
  - intros c m' Hin.
    destruct (deliveries_excluded _ _ _ _ _ _ Hin) as (? & -> & _). done.
  - intros Hok. apply broadcast_bindings_ok, unlist_bindings_ok.
    by apply bindings_ok_weaken.
Qed.

Lemma ensure_room_present roomId username st room :
  rooms st !! roomId = Some room → ensure_room roomId username st = (Normal, st).
Proof. unfold ensure_room. by intros ->. Qed.

Lemma ensure_room_ensures roomId username st :
  (ensure_room roomId username st).1 = Normal
  ∧ is_Some (rooms (ensure_room roomId username st).2 !! roomId).
Proof.
  unfold ensure_room. destruct (rooms st !! roomId) eqn:Hroom.
  - simpl. by rewrite Hroom.
  - simpl. by rewrite lookup_insert_eq.
Qed.

(** A well-formed create, step by step. *)
Lemma handleCreateRoom_steps e ws message st roomId username :
  truthy (msg_roomId message) = Some roomId →
  truthy (msg_username message) = Some username →
  let st1 := (ensure_room roomId username st).2 in
  let st2 := (leave_previous_create e ws username st1).2 in
  let st3 := bind_socket ws roomId username
               (with_rooms (alter (set_add ws) roomId) st2) in
  ∃ room2,
    rooms st2 !! roomId = Some room2
    ∧ rooms st3 !! roomId = Some (set_add ws room2)
    ∧ handleCreateRoom e ws message st
      = if sendThrows e ws then (Threw, st3)
        else broadcastToRoom e roomId
               (user_joined_creator_msg roomId username e) (Some ws)
               (with_sent (λ l, l ++ [(ws, room_created_msg roomId username e)])
                  st3).
Proof.
  intros Hr Hu st1 st2 st3.
  destruct (ensure_room_ensures roomId username st) as [Hn1 [room1 Hroom1]].
  fold st1 in Hroom1.
  destruct (leave_previous_create_effect e ws username st1)
    as (pre & Hn2 & Hkeep & _).
  destruct (Hkeep _ _ Hroom1) as (room2 & Hroom2 & _). fold st2 in Hroom2.
  exists room2. split; [done|].
  assert (rooms st3 !! roomId = Some (set_add ws room2)) as Hst3.
  { unfold st3. simpl. rewrite lookup_alter, decide_True by done.
    by rewrite Hroom2. }
  split; [done|].
  unfold handleCreateRoom. rewrite Hr, Hu. unfold seq.
  destruct (ensure_room roomId username st) as [k1 s1] eqn:He.
  simpl in Hn1. subst k1. change s1 with st1.
  destruct (leave_previous_create e ws username st1) as [k2 s2] eqn:Hl.
  simpl in Hn2. subst k2. change s2 with st2.
  unfold add_creator. rewrite Hroom2. fold st3.
  unfold ws_send. by destruct (sendThrows e ws).
Qed.

(** X21: a create whose room id and name are non-empty strings, for a
    room that already exists, leaves [roomCreators] as it was and still
    joins: the socket ends up in the member set and bound to the room
    under the new name, it is answered [room_created], and after that
    [user_joined] with [isCreator: true] goes to the other members that
    can be served. *)
Theorem create_room_keeps_first_creator e ws message st roomId username room :
  truthy (msg_roomId message) = Some roomId →
  truthy (msg_username message) = Some username →
  rooms st !! roomId = Some room →
  roomCreators (handleCreateRoom e ws message st).2 = roomCreators st
  ∧ (∃ room', rooms (handleCreateRoom e ws message st).2 !! roomId = Some room'
              ∧ ws ∈ room')
  ∧ userRooms (handleCreateRoom e ws message st).2 !! ws = Some roomId
  ∧ prop_username (handleCreateRoom e ws message st).2 ws = Str username
  ∧ ∃ pre post,
      sent (handleCreateRoom e ws message st).2
      = sent st ++ pre ++
        (if sendThrows e ws then []
         else (ws, JObj [("type", JStr "room_created");
                         ("roomId", JStr roomId);
                         ("username", JStr username);
                         ("timestamp", JNum (now e AtRoomCreated));
                         ("message", JStr "Room created successfully")])
              :: post)
      ∧ (∀ c m, (c, m) ∈ pre → c ≠ ws ∧ type_of m = Some (JStr "user_left"))
      ∧ (∀ c m, (c, m) ∈ post →
           c ≠ ws
           ∧ m = JObj [("type", JStr "user_joined");
                       ("roomId", JStr roomId);
                       ("username", JStr username);
                       ("timestamp", JNum (now e AtUserJoined));
                       ("isCreator", JBool true)])
      ∧ (∀ c, c ∈ room → c ≠ ws →
              readyOpen e c = true → sendThrows e c = false →
              (c, JObj [("type", JStr "user_joined");
                        ("roomId", JStr roomId);
                        ("username", JStr username);
                        ("timestamp", JNum (now e AtUserJoined));
                        ("isCreator", JBool true)]) ∈ post).
Proof.
  intros Hr Hu Hroom.
  destruct (handleCreateRoom_steps e ws message st roomId username Hr Hu)
    as (room2 & Hroom2 & Hst3 & ->).
  rewrite (ensure_room_present _ _ _ _ Hroom) in *.
  change ((Normal, st).2) with st in *.
  destruct (leave_previous_create_effect e ws username st)
    as (pre & _ & Hkeep & Hcreators & Hsent & Hpre & _).
  destruct (Hkeep _ _ Hroom) as (room2' & Hroom2' & Hkept).
  assert (room2' = room2) as -> by congruence. clear Hroom2'.
  set (st2 := (leave_previous_create e ws username st).2) in *.
  set (st3 := bind_socket ws roomId username
                (with_rooms (alter (set_add ws) roomId) st2)) in *.
  set (joined := user_joined_creator_msg roomId username e).
  set (st4 := with_sent (λ l, l ++ [(ws, room_created_msg roomId username e)])
                st3).
  assert (rooms st4 !! roomId = Some (set_add ws room2)) as Hst4 by done.
  destruct (broadcast_fixed e roomId joined (Some ws) st4)
    as (Hb1 & _ & Hb3).
  assert (ws ∈ set_add ws room2) as Hin by (apply elem_of_set_add; by left).
  split; [|split; [|split; [|split]]].
  - destruct (sendThrows e ws); [done|]. by rewrite Hb1.
  - destruct (sendThrows e ws); [by eauto|].
    rewrite (broadcast_rooms _ _ _ _ _ _ Hst4), lookup_insert_eq.
    eexists. split; [done|]. apply elem_of_survivors.
    rewrite prunable_not_excluded. split; [by intros []|done].
  - destruct (sendThrows e ws); [apply lookup_insert_eq|].
    rewrite (broadcast_userRooms _ _ _ _ _ _ _ Hst4).
    rewrite decide_False; [apply lookup_insert_eq|].
    rewrite elem_of_pruned, prunable_not_excluded. by intros [[] _].
  - unfold prop_username.
    destruct (sendThrows e ws); [simpl; by rewrite lookup_insert_eq|].
    rewrite Hb3. simpl. by rewrite lookup_insert_eq.
  - exists pre, (deliveries e (Some ws) joined (set_add ws room2)).
    split; [|split; [done|split]].
    + destruct (sendThrows e ws).
      * simpl. by rewrite Hsent, app_nil_r.
      * rewrite (broadcast_sent _ _ _ _ _ _ Hst4). simpl.
        rewrite Hsent. by rewrite <- !app_assoc.
    + intros c m Hm.
      by destruct (deliveries_excluded _ _ _ _ _ _ Hm) as (? & -> & _).
    + intros c Hc Hne Hopen Hok. apply elem_of_deliveries.
      split; [done|]. split.
      * unfold deliverable.
        by rewrite Hopen, Hok, bool_decide_false by congruence.
      * apply elem_of_set_add. right. apply Hkept; [done|done|].
        unfold prunable. by rewrite Hok, andb_false_r.
Qed.

(** ** Every turn keeps the bindings backed *)

Lemma with_sent_same_tables f st : same_tables st (with_sent f st).
Proof. done. Qed.

Lemma ws_send_bindings_ok x e ws m st :
  bindings_ok x st → bindings_ok x (ws_send e ws m st).2.
Proof. apply bindings_ok_same_tables, ws_send_same_tables. Qed.

Lemma broadcast_userRooms_None e roomId m excludeWs st c :
  userRooms st !! c = None →
  userRooms (broadcastToRoom e roomId m excludeWs st).2 !! c = None.
Proof.
  intros Hnone. destruct (rooms st !! roomId) as [room|] eqn:Hroom;
    [|by rewrite broadcast_absent].
  rewrite (broadcast_userRooms _ _ _ _ _ _ _ Hroom). by destruct (decide _).
Qed.

Lemma leave_previous_join_bindings_ok e ws roomId username st :
  bindings_ok None st →
  bindings_ok (Some ws) (leave_previous_join e ws roomId username st).2.
Proof.
  intros Hok. apply (bindings_ok_weaken (Some ws)) in Hok.
  unfold leave_previous_join.
  destruct (userRooms st !! ws) as [prev|]; [|done].
  destruct (rooms st !! prev); [|done].
  destruct (decide (prev = roomId)); [done|].
  by apply broadcast_bindings_ok, unlist_bindings_ok.
Qed.

Lemma handleCreateRoom_bindings_ok e ws message st :
  bindings_ok None st → bindings_ok None (handleCreateRoom e ws message st).2.
Proof.
  intros Hok.
  destruct (truthy (msg_roomId message)) as [roomId|] eqn:Hr;
    [|unfold handleCreateRoom; rewrite Hr; by apply ws_send_bindings_ok].
  destruct (truthy (msg_username message)) as [username|] eqn:Hu;
    [|unfold handleCreateRoom; rewrite Hr, Hu; by apply ws_send_bindings_ok].
  destruct (handleCreateRoom_steps e ws message st roomId username Hr Hu)
    as (room2 & Hroom2 & _ & ->).
  destruct (leave_previous_create_effect e ws username
              (ensure_room roomId username st).2) as (_ & _ & _ & _ & _ & _ & Hst2).
  apply truthy_Some in Hr as [_ Hne].
  pose proof (bind_bindings_ok ws roomId username _ _
                (Hst2 (ensure_room_bindings_ok _ _ _ _ Hok)) Hroom2 Hne)
    as Hst3.
  destruct (sendThrows e ws); [done|].
  apply broadcast_bindings_ok.
  by apply (bindings_ok_same_tables _ _ _ (with_sent_same_tables _ _)).
Qed.

Lemma handleJoinRoom_bindings_ok e ws message st :
  bindings_ok None st → bindings_ok None (handleJoinRoom e ws message st).2.
Proof.
  intros Hok.
  destruct (truthy (msg_roomId message)) as [roomId|] eqn:Hr;
    [|unfold handleJoinRoom; rewrite Hr; by apply ws_send_bindings_ok].
  destruct (truthy (msg_username message)) as [username|] eqn:Hu;
    [|unfold handleJoinRoom; rewrite Hr, Hu; by apply ws_send_bindings_ok].
  destruct (rooms st !! roomId) as [room|] eqn:Hroom;
    [|unfold handleJoinRoom; rewrite Hr, Hu, Hroom;
      by apply ws_send_bindings_ok].
  destruct (name_taken st room ws username) eqn:Htaken;
    [unfold handleJoinRoom; rewrite Hr, Hu, Hroom, Htaken;
     by apply ws_send_bindings_ok|].
  destruct (handleJoinRoom_accepted e ws message st roomId username room
              Hr Hu Hroom Htaken) as [_ ->].
  destruct (leave_previous_join_effect e ws roomId username st)
    as (_ & _ & Hrooms & _).
  rewrite Hroom in Hrooms.
  apply truthy_Some in Hr as [_ Hne].
  pose proof (bind_bindings_ok ws roomId username _ _
                (leave_previous_join_bindings_ok e ws roomId username st Hok)
                Hrooms Hne) as Hst2.
  destruct (sendThrows e ws); [done|].
  apply broadcast_bindings_ok.
  by apply (bindings_ok_same_tables _ _ _ (with_sent_same_tables _ _)).
Qed.

Lemma handleChatMessage_bindings_ok e ws message st :
  bindings_ok None st → bindings_ok None (handleChatMessage e ws message st).2.
Proof.
  intros Hok. unfold handleChatMessage.
  destruct (truthy (msg_roomId message));
    [|by apply ws_send_bindings_ok].
  destruct (msg_message message); [|by apply ws_send_bindings_ok].
  destruct (rooms st !! s); [|by apply ws_send_bindings_ok].
  destruct (set_has ws l0); [|by apply ws_send_bindings_ok].
  rewrite log_template_then. destruct (existsb _ _); [done|].
  by apply broadcast_bindings_ok.
Qed.

Lemma handleLeaveRoom_bindings_ok e ws message st :
  bindings_ok None st → bindings_ok None (handleLeaveRoom e ws message st).2.
Proof.
  intros Hok.
  destruct (truthy (js_or (msg_roomId message) (prop_roomId st ws)))
    as [roomId|] eqn:Hr; [|unfold handleLeaveRoom; by rewrite Hr].
  destruct (rooms st !! roomId) as [room|] eqn:Hroom;
    [|unfold handleLeaveRoom; by rewrite Hr, Hroom].
  rewrite (handleLeaveRoom_resolved _ _ _ _ _ _ Hr Hroom).
  apply ws_send_bindings_ok, clear_props_bindings_ok.
  - apply broadcast_bindings_ok, remove_socket_bindings_ok.
    by apply bindings_ok_weaken.
  - apply broadcast_userRooms_None. unfold remove_socket. simpl.
    apply lookup_delete_eq.
Qed.

Lemma handleUserDisconnect_bindings_ok e ws st :
  bindings_ok None st → bindings_ok None (handleUserDisconnect e ws st).2.
Proof.
  intros Hok. unfold handleUserDisconnect.
  destruct (truthy (prop_roomId st ws)) as [roomId|]; [|done].
  destruct (rooms st !! roomId); [|done].
  assert (bindings_ok None (remove_socket ws roomId st)) as Hremoved
    by by apply remove_socket_bindings_ok, bindings_ok_weaken.
  destruct (truthy (prop_username st ws)); [|done].
  by apply broadcast_bindings_ok.
Qed.

Lemma handleMessage_bindings_ok e ws message st :
  bindings_ok None st → bindings_ok None (handleMessage e ws message st).2.
Proof.
  intros Hok. unfold handleMessage.
  repeat (first
    [ apply handleCreateRoom_bindings_ok, Hok
    | apply handleJoinRoom_bindings_ok, Hok
    | apply handleChatMessage_bindings_ok, Hok
    | apply handleLeaveRoom_bindings_ok, Hok
    | apply ws_send_bindings_ok, Hok
    | match goal with
      | |- context [match ?x with _ => _ end] => destruct x
      end ]).
Qed.

Lemma handle_event_bindings_ok e ev st :
  bindings_ok None st → bindings_ok None (handle_event e ev st).2.
Proof.
  intros Hok. destruct ev as [ws [message|]|ws|]; simpl.
  - unfold on_message.
    pose proof (handleMessage_bindings_ok e ws message st Hok) as Hafter.
    destruct (handleMessage e ws message st) as [[] st']; [done|].
    by apply ws_send_bindings_ok.
  - unfold on_message. by apply ws_send_bindings_ok.
  - by apply handleUserDisconnect_bindings_ok.
  - by apply reaper_bindings_ok.
Qed.

Lemma reachable_bindings_ok st : reachable st → bindings_ok None st.
Proof.
  induction 1 as [|e ev st _ IH].
  - intros c roomId _ Hc. change (userRooms initial) with (∅ : gmap conn string) in Hc.
    by rewrite lookup_empty in Hc.
  - by apply handle_event_bindings_ok.
Qed.

Lemma reachable_run turns st : reachable st → reachable (run turns st).
Proof.
  revert st. induction turns as [|[e ev] turns IH]; intros st Hst; [done|].
  simpl. apply IH. by constructor.
Qed.


(** ** Fan-out with pruning *)































(** ** Worked cases *)

(** C3, a concrete case: Bob asks to join "R1" as "alice" while Alice is
    there under that name. *)
Lemma join_room_rejections_witness :
  truthy (msg_roomId (join_room "R1" "alice")) = Some "R1"
  ∧ truthy (msg_username (join_room "R1" "alice")) = Some "alice"
  ∧ handleJoinRoom (calm 3) bob_ws (join_room "R1" "alice") alice_in_R1
    = ws_send (calm 3) bob_ws
        (JObj [("type", JStr "join_error");
               ("message", JStr "Username already taken in this room");
               ("roomId", JStr "R1"); ("timestamp", JNum 3)])
        alice_in_R1
  ∧ same_tables alice_in_R1
      (handleJoinRoom (calm 3) bob_ws (join_room "R1" "alice") alice_in_R1).2.
Proof.
  split; [reflexivity|]. split; [reflexivity|].
  destruct (join_room_rejections (calm 3) bob_ws (join_room "R1" "alice")
              alice_in_R1 "R1" "alice" eq_refl eq_refl) as (_ & Htaken & _).
  apply (Htaken [alice_ws] alice_ws).
  - vm_compute. reflexivity.
  - constructor.
  - discriminate.
  - vm_compute. reflexivity.
Defined.

(** C3 as stated fails.  Alice and Bob are both in "R1" under the name
    "alice" (Bob got there by a [create_room]).  Alice sends a join for
    "R1" with her own name again: she is turned away with [join_error]
    ("Username already taken in this room"). *)
Lemma own_name_is_rejected_when_shared :
  reachable two_alices_in_R1
  ∧ rooms two_alices_in_R1 !! "R1" = Some [alice_ws; bob_ws]
  ∧ prop_username two_alices_in_R1 alice_ws = Str "alice"
  ∧ handleJoinRoom (calm 3) alice_ws (join_room "R1" "alice") two_alices_in_R1
    = (Normal,
       with_sent
         (λ l, l ++ [(alice_ws,
                      JObj [("type", JStr "join_error");
                            ("message",
                             JStr "Username already taken in this room");
                            ("roomId", JStr "R1");
                            ("timestamp", JNum 3)])])
         two_alices_in_R1).
Proof.
  split; [apply reachable_run; constructor|].
  vm_compute. repeat split; reflexivity.
Qed.


(** X21, a concrete case: Bob sends a create for "R1", which Alice made. *)
Lemma create_room_keeps_first_creator_witness :
  rooms alice_in_R1 !! "R1" = Some [alice_ws]
  ∧ roomCreators (handleCreateRoom (calm 2) bob_ws (create_room "R1" "bobby")
                    alice_in_R1).2 = roomCreators alice_in_R1
  ∧ userRooms (handleCreateRoom (calm 2) bob_ws (create_room "R1" "bobby")
                 alice_in_R1).2 !! bob_ws = Some "R1".
Proof.
  assert (rooms alice_in_R1 !! "R1" = Some [alice_ws]) as Hroom
    by (vm_compute; reflexivity).
  split; [exact Hroom|].
  destruct (create_room_keeps_first_creator (calm 2) bob_ws
              (create_room "R1" "bobby") alice_in_R1 "R1" "bobby" [alice_ws]
              eq_refl eq_refl Hroom) as (Hcreator & _ & Hbound & _).
  split; [exact Hcreator|exact Hbound].
Defined.





(** ** Where the tables come apart *)

(** C1 at its failing input: Alice creates "R1", Bob creates "R2", Alice
    sends a leave that names "R2".  The state is reachable, Alice is in
    the member set of "R1", and [userRooms] has no binding for her. *)
Theorem leave_of_foreign_room_breaks_agreement :
  let st := run [(calm 1, receives alice_ws (create_room "R1" "alice"));
                 (calm 2, receives bob_ws (create_room "R2" "bob"));
                 (calm 3, receives alice_ws (leave_room (Str "R2")))]
              initial in
  reachable st
  ∧ rooms st !! "R1" = Some [alice_ws]
  ∧ userRooms st !! alice_ws = None.
Proof.
  split; [apply reachable_run; constructor|].
  vm_compute. split; reflexivity.
Qed.

(** C2 at its failing input: Alice creates "R1" as "alice", Bob sends a
    create for "R1" as "alice" too.  Both are in the member set of "R1"
    and both carry the name "alice". *)
Theorem create_room_admits_taken_name :
  let st := run [(calm 1, receives alice_ws (create_room "R1" "alice"));
                 (calm 2, receives bob_ws (create_room "R1" "alice"))]
              initial in
  reachable st
  ∧ rooms st !! "R1" = Some [alice_ws; bob_ws]
  ∧ alice_ws ≠ bob_ws
  ∧ prop_username st alice_ws = Str "alice"
  ∧ prop_username st bob_ws = Str "alice".
Proof.
  split; [apply reachable_run; constructor|].
  split; [vm_compute; reflexivity|]. split; [discriminate|].
  vm_compute. split; reflexivity.
Qed.

(** * Further properties of the relay *)

(** ** A rule for invariants of the event loop

    A property of the tables that every elementary update of the handlers
    keeps is kept by every turn.  The property may exempt the socket whose
    turn is in progress while that socket is between two rooms. *)

Section turn_invariant.
Context (I : option conn → state → Prop).
Hypothesis I_same : ∀ x st st', same_tables st st' → I x st → I x st'.
Hypothesis I_weaken : ∀ x st, I None st → I x st.
Hypothesis I_settle :
  ∀ ws st, I (Some ws) st → userRooms st !! ws = None → I None st.
Hypothesis I_prune : ∀ x r c st, I x st → I x (prune r c st).
Hypothesis I_ensure :
  ∀ x r u st, rooms st !! r = None → r ≠ "" → u ≠ "" → I x st →
    I x (with_roomCreators (insert r u) (with_rooms (insert r []) st)).
Hypothesis I_unlist :
  ∀ ws r st, I (Some ws) st →
    I (Some ws) (with_rooms (alter (set_delete ws) r) st).
Hypothesis I_bind :
  ∀ ws r u st, is_Some (rooms st !! r) → r ≠ "" → u ≠ "" → I (Some ws) st →
    I None (bind_socket ws r u (with_rooms (alter (set_add ws) r) st)).
Hypothesis I_unbind :
  ∀ ws st, I (Some ws) st → I (Some ws) (with_userRooms (delete ws) st).
Hypothesis I_props :
  ∀ ws a b st, I (Some ws) st → I (Some ws) (with_props ws a b st).
Hypothesis I_reap :
  ∀ r st, I None st →
    I None (with_roomCreators (delete r) (with_rooms (delete r) st)).

Lemma forEach_deliver_keeps x e roomId m excludeWs l st :
  I x st → I x (forEach_deliver e roomId m excludeWs l st).
Proof.
  revert st. induction l as [|c l IH]; intros st Hst; [done|].
  simpl. apply IH. rewrite deliver_one_cases.
  destruct (prunable e excludeWs c); [by apply I_prune|].
  destruct (deliverable e excludeWs c); [|done].
  by apply (I_same _ st), Hst.
Qed.

Lemma broadcast_keeps x e roomId m excludeWs st :
  I x st → I x (broadcastToRoom e roomId m excludeWs st).2.
Proof.
  intros Hst. unfold broadcastToRoom.
  destruct (rooms st !! roomId); [|done]. by apply forEach_deliver_keeps.
Qed.

Lemma ws_send_keeps x e ws m st : I x st → I x (ws_send e ws m st).2.
Proof. apply I_same, ws_send_same_tables. Qed.

Lemma ensure_room_keeps x roomId username st :
  roomId ≠ "" → username ≠ "" →
  I x st → I x (ensure_room roomId username st).2.
Proof.
  intros Hr Hu Hst. unfold ensure_room.
  destruct (rooms st !! roomId) eqn:Hroom; [done|]. by apply I_ensure.
Qed.

Lemma leave_previous_create_keeps e ws username st :
  I None st → I (Some ws) (leave_previous_create e ws username st).2.
Proof.
  intros Hst. apply (I_weaken (Some ws)) in Hst. unfold leave_previous_create.
  destruct (userRooms st !! ws) as [prev|]; [|done].
  destruct (rooms st !! prev); [|done].
  by apply broadcast_keeps, I_unlist.
Qed.

Lemma leave_previous_join_keeps e ws roomId username st :
  I None st → I (Some ws) (leave_previous_join e ws roomId username st).2.
Proof.
  intros Hst. apply (I_weaken (Some ws)) in Hst. unfold leave_previous_join.
  destruct (userRooms st !! ws) as [prev|]; [|done].
  destruct (rooms st !! prev); [|done].
  destruct (decide (prev = roomId)); [done|].
  by apply broadcast_keeps, I_unlist.
Qed.

Lemma handleCreateRoom_keeps e ws message st :
  I None st → I None (handleCreateRoom e ws message st).2.
Proof.
  intros Hst.
  destruct (truthy (msg_roomId message)) as [roomId|] eqn:Hr;
    [|unfold handleCreateRoom; rewrite Hr; by apply ws_send_keeps].
  destruct (truthy (msg_username message)) as [username|] eqn:Hu;
    [|unfold handleCreateRoom; rewrite Hr, Hu; by apply ws_send_keeps].
  destruct (handleCreateRoom_steps e ws message st roomId username Hr Hu)
    as (room2 & Hroom2 & _ & ->).
  apply truthy_Some in Hr as [_ Hr]. apply truthy_Some in Hu as [_ Hu].
  assert (I None
            (bind_socket ws roomId username
               (with_rooms (alter (set_add ws) roomId)
                  (leave_previous_create e ws username
                     (ensure_room roomId username st).2).2))) as Hst3.
  { apply I_bind; [by eexists|done|done|].
    by apply leave_previous_create_keeps, ensure_room_keeps. }
  destruct (sendThrows e ws); [done|].
  apply broadcast_keeps. revert Hst3. apply I_same, with_sent_same_tables.
Qed.

Lemma handleJoinRoom_keeps e ws message st :
  I None st → I None (handleJoinRoom e ws message st).2.
Proof.
  intros Hst.
  destruct (truthy (msg_roomId message)) as [roomId|] eqn:Hr;
    [|unfold handleJoinRoom; rewrite Hr; by apply ws_send_keeps].
  destruct (truthy (msg_username message)) as [username|] eqn:Hu;
    [|unfold handleJoinRoom; rewrite Hr, Hu; by apply ws_send_keeps].
  destruct (rooms st !! roomId) as [room|] eqn:Hroom;
    [|unfold handleJoinRoom; rewrite Hr, Hu, Hroom; by apply ws_send_keeps].
  destruct (name_taken st room ws username) eqn:Htaken;
    [unfold handleJoinRoom; rewrite Hr, Hu, Hroom, Htaken;
     by apply ws_send_keeps|].
  destruct (handleJoinRoom_accepted e ws message st roomId username room
              Hr Hu Hroom Htaken) as [_ ->].
  destruct (leave_previous_join_effect e ws roomId username st)
    as (_ & _ & Hrooms & _).
  rewrite Hroom in Hrooms.
  apply truthy_Some in Hr as [_ Hr]. apply truthy_Some in Hu as [_ Hu].
  assert (I None
            (bind_socket ws roomId username
               (with_rooms (alter (set_add ws) roomId)
                  (leave_previous_join e ws roomId username st).2))) as Hst2.
  { apply I_bind; [by eexists|done|done|].
    by apply leave_previous_join_keeps. }
  destruct (sendThrows e ws); [done|].
  apply broadcast_keeps. revert Hst2. apply I_same, with_sent_same_tables.
Qed.

Lemma handleChatMessage_keeps e ws message st :
  I None st → I None (handleChatMessage e ws message st).2.
Proof.
  intros Hst. unfold handleChatMessage.
  destruct (truthy (msg_roomId message)) as [roomId|];
    [|by apply ws_send_keeps].
  destruct (msg_message message); [|by apply ws_send_keeps].
  destruct (rooms st !! roomId) as [room|]; [|by apply ws_send_keeps].
  destruct (set_has ws room); [|by apply ws_send_keeps].
  rewrite log_template_then. destruct (existsb _ _); [done|].
  by apply broadcast_keeps.
Qed.

Lemma remove_socket_keeps ws roomId st :
  I None st → I (Some ws) (remove_socket ws roomId st).
Proof.
  intros Hst. unfold remove_socket. by apply I_unbind, I_unlist, I_weaken.
Qed.

Lemma handleLeaveRoom_keeps e ws message st :
  I None st → I None (handleLeaveRoom e ws message st).2.
Proof.
  intros Hst.
  destruct (truthy (js_or (msg_roomId message) (prop_roomId st ws)))
    as [roomId|] eqn:Hr; [|unfold handleLeaveRoom; by rewrite Hr].
  destruct (rooms st !! roomId) as [room|] eqn:Hroom;
    [|unfold handleLeaveRoom; by rewrite Hr, Hroom].
  rewrite (handleLeaveRoom_resolved _ _ _ _ _ _ Hr Hroom).
  apply ws_send_keeps, (I_settle ws).
  - by apply I_props, broadcast_keeps, remove_socket_keeps.
  - simpl. apply broadcast_userRooms_None. unfold remove_socket. simpl.
    apply lookup_delete_eq.
Qed.

Lemma handleUserDisconnect_keeps e ws st :
  I None st → I None (handleUserDisconnect e ws st).2.
Proof.
  intros Hst. unfold handleUserDisconnect.
  destruct (truthy (prop_roomId st ws)) as [roomId|]; [|done].
  destruct (rooms st !! roomId); [|done].
  assert (userRooms (remove_socket ws roomId st) !! ws = None) as Hfree
    by (unfold remove_socket; simpl; apply lookup_delete_eq).
  destruct (truthy (prop_username st ws)).
  - apply (I_settle ws).
    + by apply broadcast_keeps, remove_socket_keeps.
    + by apply broadcast_userRooms_None.
  - apply (I_settle ws); [by apply remove_socket_keeps|done].
Qed.

Lemma handleMessage_keeps e ws message st :
  I None st → I None (handleMessage e ws message st).2.
Proof.
  intros Hst. unfold handleMessage.
  repeat (first
    [ apply handleCreateRoom_keeps, Hst
    | apply handleJoinRoom_keeps, Hst
    | apply handleChatMessage_keeps, Hst
    | apply handleLeaveRoom_keeps, Hst
    | apply ws_send_keeps, Hst
    | match goal with
      | |- context [match ?x with _ => _ end] => destruct x
      end ]).
Qed.

Lemma on_message_keeps e ws data st :
  I None st → I None (on_message e ws data st).2.
Proof.
  intros Hst. unfold on_message. destruct data as [message|];
    [|by apply ws_send_keeps].
  pose proof (handleMessage_keeps e ws message st Hst) as Hafter.
  destruct (handleMessage e ws message st) as [[] st']; [done|].
  by apply ws_send_keeps.
Qed.

Lemma reaper_keeps st : I None st → I None (reaper st).
Proof.
  intros Hst. unfold reaper.
  induction (map_to_list (rooms st)) as [|[k v] l IH]; [done|].
  cbn [foldr]. unfold reap_entry at 1.
  destruct (decide (length (k, v).2 = 0%nat)); [|done]. by apply I_reap.
Qed.

Lemma handle_event_keeps e ev st :
  I None st → I None (handle_event e ev st).2.
Proof.
  intros Hst. destruct ev as [ws data|ws|]; simpl.
  - by apply on_message_keeps.
  - by apply handleUserDisconnect_keeps.
  - by apply reaper_keeps.
Qed.

Lemma reachable_keeps st : I None initial → reachable st → I None st.
Proof.
  intros Hinit. induction 1 as [|e ev st _ IH]; [done|].
  by apply handle_event_keeps.
Qed.
End turn_invariant.

(** ** Well-formed tables *)

Lemma tables_ok_frame st st' :
  rooms st' = rooms st → roomCreators st' = roomCreators st →
  tables_ok st → tables_ok st'.
Proof. unfold tables_ok. by intros -> ->. Qed.

Lemma tables_ok_alter (f : list conn → list conn) r st :
  (∀ room, NoDup room → NoDup (f room)) →
  tables_ok st → tables_ok (with_rooms (alter f r) st).
Proof.
  intros Hf (Hdom & Hrooms & Hcreators). split; [|split]; simpl.
  - intros r'. by rewrite lookup_alter_is_Some.
  - intros r' room. rewrite lookup_alter.
    destruct (decide (r = r')) as [->|_]; [|by apply Hrooms].
    destruct (rooms st !! r') as [room0|] eqn:Hroom0; [|done].
    intros [= <-]. destruct (Hrooms _ _ Hroom0). split; [done|by apply Hf].
  - done.
Qed.

Lemma NoDup_set_delete ws room : NoDup room → NoDup (set_delete ws room).
Proof. apply NoDup_filter. Qed.

Lemma NoDup_set_add ws room : NoDup room → NoDup (set_add ws room).
Proof.
  intros Hroom. unfold set_add. destruct (decide (ws ∈ room)); [done|].
  apply NoDup_app. split; [done|]. split; [|apply NoDup_singleton].
  intros x Hx ->%list_elem_of_singleton. done.
Qed.

Lemma tables_ok_prune r c st : tables_ok st → tables_ok (prune r c st).
Proof.
  intros Hst. unfold prune.
  apply (tables_ok_frame (with_rooms (alter (set_delete c) r) st)); [done..|].
  apply tables_ok_alter; [intros ?; apply NoDup_set_delete|done].
Qed.

Lemma tables_ok_ensure r u st :
  r ≠ "" → u ≠ "" → tables_ok st →
  tables_ok (with_roomCreators (insert r u) (with_rooms (insert r []) st)).
Proof.
  intros Hr Hu (Hdom & Hrooms & Hcreators). split; [|split]; simpl.
  - intros r'. rewrite !lookup_insert_is_Some. by rewrite Hdom.
  - intros r' room. rewrite lookup_insert.
    destruct (decide (r = r')) as [->|_]; [|by apply Hrooms].
    intros [= <-]. split; [done|apply NoDup_nil_2].
  - intros r' u'. rewrite lookup_insert.
    destruct (decide (r = r')) as [->|_]; [|by apply Hcreators].
    by intros [= <-].
Qed.

Lemma tables_ok_bind ws r u st :
  tables_ok st →
  tables_ok (bind_socket ws r u (with_rooms (alter (set_add ws) r) st)).
Proof.
  intros Hst.
  apply (tables_ok_frame (with_rooms (alter (set_add ws) r) st)); [done..|].
  apply tables_ok_alter; [intros ?; apply NoDup_set_add|done].
Qed.

Lemma tables_ok_reap r st :
  tables_ok st →
  tables_ok (with_roomCreators (delete r) (with_rooms (delete r) st)).
Proof.
  intros (Hdom & Hrooms & Hcreators). split; [|split]; simpl.
  - intros r'. rewrite !lookup_delete_is_Some. by rewrite Hdom.
  - intros r' room Hroom. apply lookup_delete_Some in Hroom as [_ Hroom].
    by apply Hrooms.
  - intros r' u Hu. apply lookup_delete_Some in Hu as [_ Hu].
    by apply (Hcreators r').
Qed.

Lemma tables_ok_initial : tables_ok initial.
Proof.
  split; [|split]; simpl.
  - intros r. by rewrite !lookup_empty.
  - intros r room. by rewrite lookup_empty.
  - intros r u. by rewrite lookup_empty.
Qed.

Lemma handle_event_tables_ok e ev st :
  tables_ok st → tables_ok (handle_event e ev st).2.
Proof.
  apply (handle_event_keeps (λ _, tables_ok)).
  - intros _ s s' (Hr & Hc & _). by apply tables_ok_frame.
  - done.
  - done.
  - intros _. apply tables_ok_prune.
  - intros _ r u s _. apply tables_ok_ensure.
  - intros ws r s. apply tables_ok_alter. intros ?. apply NoDup_set_delete.
  - intros ws r u s _ _ _. apply tables_ok_bind.
  - intros ws s. by apply tables_ok_frame.
  - intros ws a b s. by apply tables_ok_frame.
  - apply tables_ok_reap.
Qed.

Lemma on_message_tables_ok e ws data st :
  tables_ok st → tables_ok (on_message e ws data st).2.
Proof. apply (handle_event_tables_ok e (EvMessage ws data)). Qed.

Lemma reachable_tables st : reachable st → tables_ok st.
Proof.
  induction 1 as [|e ev st _ IH]; [apply tables_ok_initial|].
  by apply handle_event_tables_ok.
Qed.

(** X12: in every state the server goes through, [rooms] and
    [roomCreators] have the same keys, and no member set lists a socket
    twice. *)
Theorem rooms_and_creators_agree st :
  reachable st →
  (∀ r, is_Some (rooms st !! r) ↔ is_Some (roomCreators st !! r))
  ∧ (∀ r room, rooms st !! r = Some room → NoDup room).
Proof.
  intros Hreach. destruct (reachable_tables st Hreach) as (Hdom & Hrooms & _).
  split; [exact Hdom|]. intros r room Hroom. by destruct (Hrooms r room Hroom).
Qed.

(** ** Bound sockets carry a name *)

Lemma handle_event_names_ok e ev st :
  names_ok None st → names_ok None (handle_event e ev st).2.
Proof.
  apply (handle_event_keeps names_ok).
  - intros x s s' (_ & _ & Hu & _ & Hn) Hok c r Hx Hc.
    rewrite Hu in Hc. unfold prop_username. rewrite Hn. by apply (Hok c r).
  - intros x s Hok c r _ Hc. by apply (Hok c r).
  - intros ws s Hok Hfree c r _ Hc. apply (Hok c r); [congruence|done].
  - intros x r c s Hok d r' Hx Hd. unfold prune in Hd. simpl in Hd.
    apply lookup_delete_Some in Hd as [_ Hd]. by apply (Hok d r').
  - intros x r u s _ _ _ Hok c r' Hx Hc. by apply (Hok c r').
  - intros ws r s Hok c r' Hx Hc. by apply (Hok c r').
  - intros ws r u s _ _ Hu Hok c r' _ Hc. simpl in Hc.
    unfold prop_username. simpl.
    destruct (decide (ws = c)) as [->|Hne].
    + rewrite lookup_insert_eq. by exists u.
    + rewrite lookup_insert_ne in Hc by done. rewrite lookup_insert_ne by done.
      apply (Hok c r'); [congruence|done].
  - intros ws s Hok c r Hx Hc. simpl in Hc.
    apply lookup_delete_Some in Hc as [_ Hc]. by apply (Hok c r).
  - intros ws a b s Hok c r Hx Hc. simpl in Hc.
    unfold prop_username. simpl. rewrite lookup_insert_ne by congruence.
    by apply (Hok c r).
  - intros r s Hok c r' _ Hc. by apply (Hok c r').
Qed.

Lemma reachable_names_ok st : reachable st → names_ok None st.
Proof.
  induction 1 as [|e ev st _ IH].
  - intros c r _ Hc.
    change (userRooms initial) with (∅ : gmap conn string) in Hc.
    by rewrite lookup_empty in Hc.
  - by apply handle_event_names_ok.
Qed.

(** X13: in every state the server goes through, the [roomId] property
    of a socket that [userRooms] binds to a room is the id of that room:
    the binding and the property are written together, and the property
    is cleared only after the binding is gone. *)
Theorem bound_socket_names_its_room st c roomId :
  reachable st → userRooms st !! c = Some roomId →
  prop_roomId st c = Str roomId.
Proof.
  intros Hreach Hbound.
  by destruct (reachable_bindings_ok st Hreach c roomId) as (_ & ? & _).
Qed.

(** ** The listeners *)

Lemma ws_send_normal e ws m st :
  sendThrows e ws = false → (ws_send e ws m st).1 = Normal.
Proof. intros Hok. by rewrite (ws_send_ok _ _ _ _ Hok). Qed.

(** X1: the ['message'] listener lets an exception escape only when the
    send to the socket whose message is handled raises: what a handler
    throws is caught, and the catch block answers that socket with
    [error] ("Invalid message format") from the state the handler left. *)
Theorem message_listener_raises_only_with_own_send e ws data st :
  ((on_message e ws data st).1 = Threw → sendThrows e ws = true)
  ∧ (∀ message st',
       data = Some message → handleMessage e ws message st = (Threw, st') →
       on_message e ws data st
       = ws_send e ws
           (JObj [("type", JStr "error");
                  ("message", JStr "Invalid message format");
                  ("timestamp", JNum (now e AtError))]) st').
Proof.
  split.
  - unfold on_message.
    destruct data as [message|];
      [destruct (handleMessage e ws message st) as [[] st']|];
      simpl; unfold ws_send; by destruct (sendThrows e ws).
  - intros message st' -> Hthrew. unfold on_message. by rewrite Hthrew.
Qed.

(** A reply that is the whole turn: the listener is the single send. *)
Lemma on_message_reply e ws message m st :
  handleMessage e ws message st = ws_send e ws m st →
  on_message e ws (Some message) st = ws_send e ws m st.
Proof.
  intros Hreply. unfold on_message. rewrite Hreply. unfold ws_send.
  by destruct (sendThrows e ws).
Qed.

(** X2: input that does not parse is answered [error] ("Invalid message
    format"), a [ping] is answered [pong], a message whose type is none of
    the five known ones is answered [error] ("Unknown message type"); in
    each case the turn is that single send and no table changes. *)
Theorem other_input_is_only_answered e ws st :
  on_message e ws None st
  = ws_send e ws (error_msg "Invalid message format" e) st
  ∧ (∀ message,
       msg_type message = Str "ping" →
       on_message e ws (Some message) st = ws_send e ws (pong_msg e) st
       ∧ same_tables st (on_message e ws (Some message) st).2)
  ∧ (∀ message,
       msg_type message ≠ Str "create_room" →
       msg_type message ≠ Str "join_room" →
       msg_type message ≠ Str "chat_message" →
       msg_type message ≠ Str "leave_room" →
       msg_type message ≠ Str "ping" →
       on_message e ws (Some message) st
       = ws_send e ws (error_msg "Unknown message type" e) st
       ∧ same_tables st (on_message e ws (Some message) st).2).
Proof.
  split; [done|]. split.
  - intros message Hty.
    assert (on_message e ws (Some message) st = ws_send e ws (pong_msg e) st)
      as ->; [|split; [done|apply ws_send_same_tables]].
    apply on_message_reply. unfold handleMessage. by rewrite Hty.
  - intros message H1 H2 H3 H4 H5.
    assert (on_message e ws (Some message) st
            = ws_send e ws (error_msg "Unknown message type" e) st)
      as ->; [|split; [done|apply ws_send_same_tables]].
    apply on_message_reply. unfold handleMessage.
    destruct (msg_type message) as [| |ty]; [done|done|].
    repeat match goal with
           | |- context [match ?x with _ => _ end] => destruct x
           end; done.
Qed.

(** X3: a create or a join whose room id or user name is missing, [null]
    or the empty string is answered [error] ("Room ID and username are
    required", echoing the room id as received) and changes no table. *)
Theorem create_or_join_without_fields_is_refused e ws message st :
  truthy (msg_roomId message) = None ∨ truthy (msg_username message) = None →
  (handleCreateRoom e ws message st
   = ws_send e ws
       (error_room_msg "Room ID and username are required"
          (msg_roomId message) e) st
   ∧ same_tables st (handleCreateRoom e ws message st).2)
  ∧ (handleJoinRoom e ws message st
     = ws_send e ws
         (error_room_msg "Room ID and username are required"
            (msg_roomId message) e) st
     ∧ same_tables st (handleJoinRoom e ws message st).2).
Proof.
  intros Hmissing.
  assert (handleCreateRoom e ws message st
          = ws_send e ws
              (error_room_msg "Room ID and username are required"
                 (msg_roomId message) e) st) as ->.
  { unfold handleCreateRoom. destruct Hmissing as [-> | ->]; [done|].
    by destruct (truthy (msg_roomId message)). }
  assert (handleJoinRoom e ws message st
          = ws_send e ws
              (error_room_msg "Room ID and username are required"
                 (msg_roomId message) e) st) as ->.
  { unfold handleJoinRoom. destruct Hmissing as [-> | ->]; [done|].
    by destruct (truthy (msg_roomId message)). }
  split; (split; [done|apply ws_send_same_tables]).
Qed.

(** ** Creating a room *)

Lemma leave_previous_create_rooms_at e ws username st r room :
  rooms st !! r = Some room →
  rooms (leave_previous_create e ws username st).2 !! r
  = Some (if decide (userRooms st !! ws = Some r)
          then survivors e (Some ws) (set_delete ws room) else room).
Proof.
  intros Hroom. unfold leave_previous_create.
  destruct (userRooms st !! ws) as [prev|];
    [|by rewrite decide_False by done].
  destruct (decide (prev = r)) as [->|Hne].
  - rewrite Hroom, decide_True by done.
    erewrite broadcast_rooms; [apply lookup_insert_eq|].
    simpl. by rewrite lookup_alter, decide_True, Hroom by done.
  - rewrite decide_False by congruence.
    destruct (rooms st !! prev) as [proom|] eqn:Hprev; [|done].
    erewrite broadcast_rooms
      by (simpl; rewrite lookup_alter, decide_True, Hprev by done; done).
    rewrite lookup_insert_ne by done. simpl.
    by rewrite lookup_alter_ne.
Qed.

Lemma survivors_self e ws : survivors e (Some ws) [ws] = [ws].
Proof.
  unfold survivors. rewrite filter_cons, prunable_not_excluded.
  by rewrite decide_True.
Qed.

Lemma deliveries_self e ws m : deliveries e (Some ws) m [ws] = [].
Proof.
  unfold deliveries. rewrite filter_cons, deliverable_not_excluded.
  by rewrite decide_False by (by intros []).
Qed.

(** X4: a well-formed create for a room id that is not in the table makes
    the room with the requester as its only member and records the
    requester's name as creator; other creator records are untouched; the
    requester is bound under that name and answered [room_created]; no
    [user_joined] is sent, there being nobody else in the room. *)
Theorem create_room_opens_new_room e ws message st roomId username :
  truthy (msg_roomId message) = Some roomId →
  truthy (msg_username message) = Some username →
  rooms st !! roomId = None →
  rooms (handleCreateRoom e ws message st).2 !! roomId = Some [ws]
  ∧ roomCreators (handleCreateRoom e ws message st).2
    = <[roomId := username]> (roomCreators st)
  ∧ userRooms (handleCreateRoom e ws message st).2 !! ws = Some roomId
  ∧ prop_roomId (handleCreateRoom e ws message st).2 ws = Str roomId
  ∧ prop_username (handleCreateRoom e ws message st).2 ws = Str username
  ∧ ∃ pre,
      sent (handleCreateRoom e ws message st).2
      = sent st ++ pre ++
        (if sendThrows e ws then []
         else [(ws, room_created_msg roomId username e)])
      ∧ ∀ c m, (c, m) ∈ pre → c ≠ ws ∧ type_of m = Some (JStr "user_left").
Proof.
  intros Hr Hu Habsent.
  destruct (handleCreateRoom_steps e ws message st roomId username Hr Hu)
    as (room2 & Hroom2 & Hst3 & ->).
  assert (ensure_room roomId username st
          = (Normal, with_roomCreators (insert roomId username)
                       (with_rooms (insert roomId []) st))) as Hensure
    by (unfold ensure_room; by rewrite Habsent).
  rewrite Hensure in *. change ((Normal, ?s).2) with s in *.
  set (st1 := with_roomCreators (insert roomId username)
                (with_rooms (insert roomId []) st)) in *.
  assert (rooms st1 !! roomId = Some []) as Hst1
    by (unfold st1; simpl; apply lookup_insert_eq).
  rewrite (leave_previous_create_rooms_at _ _ _ _ _ _ Hst1) in Hroom2.
  assert (room2 = []) as ->.
  { destruct (decide _); by injection Hroom2 as <-. }
  clear Hroom2.
  destruct (leave_previous_create_effect e ws username st1)
    as (pre & _ & _ & Hcreators & Hsent & Hpre & _).
  set (st2 := (leave_previous_create e ws username st1).2) in *.
  set (st3 := bind_socket ws roomId username
                (with_rooms (alter (set_add ws) roomId) st2)) in *.
  set (joined := user_joined_creator_msg roomId username e).
  set (st4 := with_sent (λ l, l ++ [(ws, room_created_msg roomId username e)])
                st3).
  change (set_add ws []) with [ws] in Hst3.
  assert (rooms st4 !! roomId = Some [ws]) as Hst4 by done.
  destruct (broadcast_fixed e roomId joined (Some ws) st4)
    as (Hb1 & Hb2 & Hb3).
  split; [|split; [|split; [|split; [|split]]]].
  - destruct (sendThrows e ws); [done|].
    by rewrite (broadcast_rooms _ _ _ _ _ _ Hst4), lookup_insert_eq,
      survivors_self.
  - destruct (sendThrows e ws); [by simpl; rewrite Hcreators|].
    rewrite Hb1. simpl. by rewrite Hcreators.
  - destruct (sendThrows e ws); [apply lookup_insert_eq|].
    rewrite (broadcast_userRooms _ _ _ _ _ _ _ Hst4).
    rewrite decide_False; [apply lookup_insert_eq|].
    rewrite elem_of_pruned, prunable_not_excluded. by intros [[] _].
  - unfold prop_roomId.
    destruct (sendThrows e ws); [simpl; by rewrite lookup_insert_eq|].
    rewrite Hb2. simpl. by rewrite lookup_insert_eq.
  - unfold prop_username.
    destruct (sendThrows e ws); [simpl; by rewrite lookup_insert_eq|].
    rewrite Hb3. simpl. by rewrite lookup_insert_eq.
  - exists pre. split; [|done].
    destruct (sendThrows e ws).
    + simpl. by rewrite Hsent, app_nil_r.
    + rewrite (broadcast_sent _ _ _ _ _ _ Hst4), deliveries_self. simpl.
      rewrite Hsent, app_nil_r. by rewrite <- app_assoc.
Qed.

(** ** Joining a room *)






Lemma set_add_absent ws room : ws ∉ room → set_add ws room = room ++ [ws].
Proof. intros. unfold set_add. by rewrite decide_False. Qed.

(** X7: a well-formed create sent by a socket for the room it is already
    bound to is a leave followed by a join of the same room: the other
    members are sent [user_left] (with the name given in the create), the
    socket goes to the end of the member set, it is answered
    [room_created], and the others are sent [user_joined]. *)
Theorem create_room_in_own_room_leaves_and_rejoins e ws message st roomId
    username room :
  truthy (msg_roomId message) = Some roomId →
  truthy (msg_username message) = Some username →
  userRooms st !! ws = Some roomId →
  rooms st !! roomId = Some room →
  rooms (handleCreateRoom e ws message st).2 !! roomId
  = Some (if sendThrows e ws
          then survivors e (Some ws) (set_delete ws room) ++ [ws]
          else survivors e (Some ws)
                 (survivors e (Some ws) (set_delete ws room) ++ [ws]))
  ∧ sent (handleCreateRoom e ws message st).2
    = sent st
      ++ deliveries e (Some ws) (user_left_switch_msg roomId username e)
           (set_delete ws room)
      ++ (if sendThrows e ws then []
          else (ws, room_created_msg roomId username e)
               :: deliveries e (Some ws)
                    (user_joined_creator_msg roomId username e)
                    (survivors e (Some ws) (set_delete ws room) ++ [ws])).
Proof.
  intros Hr Hu Hbound Hroom.
  destruct (handleCreateRoom_steps e ws message st roomId username Hr Hu)
    as (room2 & Hroom2 & Hst3 & ->).
  rewrite (ensure_room_present _ _ _ _ Hroom) in *.
  change ((Normal, st).2) with st in *.
  rewrite (leave_previous_create_rooms_at _ _ _ _ _ _ Hroom),
    decide_True in Hroom2 by done.
  injection Hroom2 as <-.
  rewrite set_add_absent in Hst3
    by (rewrite elem_of_survivors, elem_of_set_delete; tauto).
  set (st0 := with_rooms (alter (set_delete ws) roomId) st).
  set (left := user_left_switch_msg roomId username e).
  assert (leave_previous_create e ws username st
          = broadcastToRoom e roomId left (Some ws) st0) as Hleave.
  { unfold leave_previous_create. by rewrite Hbound, Hroom. }
  assert (rooms st0 !! roomId = Some (set_delete ws room)) as Hst0.
  { unfold st0. simpl. by rewrite lookup_alter, decide_True, Hroom by done. }
  assert (sent (leave_previous_create e ws username st).2
          = sent st ++ deliveries e (Some ws) left (set_delete ws room))
    as Hsent2 by (rewrite Hleave; by rewrite (broadcast_sent _ _ _ _ _ _ Hst0)).
  set (st2 := (leave_previous_create e ws username st).2) in *.
  set (st3 := bind_socket ws roomId username
                (with_rooms (alter (set_add ws) roomId) st2)) in *.
  set (st4 := with_sent (λ l, l ++ [(ws, room_created_msg roomId username e)])
                st3).
  assert (rooms st4 !! roomId
          = Some (survivors e (Some ws) (set_delete ws room) ++ [ws]))
    as Hst4 by done.
  destruct (sendThrows e ws).
  - split; [done|]. simpl. by rewrite Hsent2, app_nil_r.
  - split.
    + by rewrite (broadcast_rooms _ _ _ _ _ _ Hst4), lookup_insert_eq.
    + rewrite (broadcast_sent _ _ _ _ _ _ Hst4). simpl.
      rewrite Hsent2. by rewrite <- !app_assoc.
Qed.

(** ** Leaving and disconnecting *)





(** ** Relaying a chat message *)

(** X22: a chat message without room id or payload is answered [error]
    ("Room ID and message are required"); one for a room that does not
    exist, or in whose member set the sender is not, is answered [error]
    ("You are not in this room") with the room id.  [userRooms] is not
    consulted, and neither reply changes a table or a socket property. *)
Theorem chat_message_refusals e ws message st :
  ((truthy (msg_roomId message) = None ∨ msg_message message = None) →
     handleChatMessage e ws message st
     = ws_send e ws
         (JObj [("type", JStr "error");
                ("message", JStr "Room ID and message are required");
                ("timestamp", JNum (now e AtError))]) st
     ∧ same_tables st (handleChatMessage e ws message st).2)
  ∧ (∀ roomId chatMessage,
       truthy (msg_roomId message) = Some roomId →
       msg_message message = Some chatMessage →
       (rooms st !! roomId = None
        ∨ ∃ room, rooms st !! roomId = Some room ∧ ws ∉ room) →
       handleChatMessage e ws message st
       = ws_send e ws
           (JObj [("type", JStr "error");
                  ("message", JStr "You are not in this room");
                  ("roomId", JStr roomId);
                  ("timestamp", JNum (now e AtError))]) st
       ∧ same_tables st (handleChatMessage e ws message st).2).
Proof.
  split.
  - intros Hmissing.
    assert (handleChatMessage e ws message st
            = ws_send e ws (error_msg "Room ID and message are required" e) st)
      as ->.
    { unfold handleChatMessage.
      destruct Hmissing as [-> | ->]; [done|].
      by destruct (truthy (msg_roomId message)). }
    split; [done|apply ws_send_same_tables].
  - intros roomId chatMessage Hr Hm Hout.
    destruct (truthy_Some _ _ Hr) as [Hraw _].
    assert (handleChatMessage e ws message st
            = ws_send e ws
                (error_room_msg "You are not in this room" (Str roomId) e) st)
      as ->.
    { unfold handleChatMessage. rewrite Hr, Hm, Hraw.
      destruct Hout as [-> | (room & -> & Hnot)]; [done|].
      unfold set_has. by rewrite bool_decide_false. }
    split; [done|apply ws_send_same_tables].
Qed.

(** X23: a chat message of a member of the room.  When its [author] does
    not convert to a string, the handler throws in its log line, before
    the fan-out, and leaves the state as it was.  When it converts, the
    handler ends normally and the log grows by one [chat_message] to every
    other member that can be served, and by nothing else: the sender gets
    no copy.  The payload that is relayed has the fields of the original
    one, with [serverTimestamp] and [roomId] written by the server. *)
Theorem chat_message_relay e ws message st roomId chatMessage room :
  truthy (msg_roomId message) = Some roomId →
  msg_message message = Some chatMessage →
  rooms st !! roomId = Some room → ws ∈ room →
  (toString_throws (author_of chatMessage) = true →
     handleChatMessage e ws message st = (Threw, st))
  ∧ (toString_throws (author_of chatMessage) = false →
     (handleChatMessage e ws message st).1 = Normal
     ∧ ∃ relayed new,
         sent (handleChatMessage e ws message st).2 = sent st ++ new
         ∧ (∀ c m, (c, m) ∈ new ↔
              m = JObj [("type", JStr "chat_message");
                        ("roomId", JStr roomId);
                        ("message", JObj relayed);
                        ("timestamp", JNum (now e AtChatMessage))]
              ∧ c ≠ ws ∧ c ∈ room
              ∧ readyOpen e c = true ∧ sendThrows e c = false)
         ∧ obj_get "serverTimestamp" relayed
           = Some (JNum (now e AtServerTimestamp))
         ∧ obj_get "roomId" relayed = Some (JStr roomId)
         ∧ ∀ k, k ≠ "serverTimestamp" → k ≠ "roomId" →
                obj_get k relayed = obj_get k chatMessage).
Proof.
  intros Hr Hm Hroom Hin.
  rewrite (handleChatMessage_member _ _ _ _ _ _ _ Hr Hm Hroom Hin).
  split; intros ->; [done|].
  split; [apply broadcast_completion|].
  exists (enhancedMessage chatMessage roomId e),
         (deliveries e (Some ws) (chat_message_msg roomId chatMessage e) room).
  split; [by apply broadcast_sent|]. split.
  - intros c m. split.
    + intros Hd. by destruct (deliveries_excluded _ _ _ _ _ _ Hd)
        as (? & -> & ? & ? & ?).
    + intros (-> & Hne & Hc & Hopen & Hok). apply elem_of_deliveries.
      split; [done|]. split; [|done]. unfold deliverable.
      by rewrite Hopen, Hok, bool_decide_false by congruence.
  - apply enhancedMessage_fields.
Qed.

(** ** Sweeps *)





(** ** Creator records and the status route *)

(** X14: in every state the server goes through, the [/status] entry of
    a room reports the name recorded when the room was created and the
    size of its member set; the fallback ['unknown'] is never reported. *)
Theorem status_reports_recorded_creator st roomId clients :
  reachable st → rooms st !! roomId = Some clients →
  ∃ creator,
    roomCreators st !! roomId = Some creator ∧ creator ≠ ""
    ∧ status_room st roomId clients
      = JObj [("roomId", JStr roomId);
              ("participantCount", JNum (Z.of_nat (length clients)));
              ("creator", JStr creator)].
Proof.
  intros Hreach Hroom.
  destruct (reachable_tables st Hreach) as (Hdom & _ & Hcreators).
  destruct (proj1 (Hdom roomId)) as [creator Hcreator]; [by eexists|].
  exists creator. pose proof (Hcreators _ _ Hcreator) as Hne.
  split; [done|]. split; [done|].
  unfold status_room. by rewrite Hcreator, decide_False.
Qed.

(** X16: no message and no close deletes a room: a room that is in the
    table before the turn is in the table after it, whoever left. *)
Theorem rooms_outlive_their_members e ws data st r :
  is_Some (rooms st !! r) →
  is_Some (rooms (on_message e ws data st).2 !! r)
  ∧ is_Some (rooms (on_close e ws st).2 !! r).
Proof.
  intros Hroom. split.
  - revert Hroom. apply (on_message_keeps (λ _ s, is_Some (rooms s !! r))).
    + by intros _ s s' (-> & _).
    + done.
    + done.
    + intros _ r' c s. unfold prune. simpl. by rewrite lookup_alter_is_Some.
    + intros _ r' u s _ _ _ Hs. simpl. rewrite lookup_insert_is_Some'. tauto.
    + intros ws' r' s. simpl. by rewrite lookup_alter_is_Some.
    + intros ws' r' u s _ _ _. simpl. by rewrite lookup_alter_is_Some.
    + done.
    + done.
  - revert Hroom.
    apply (handleUserDisconnect_keeps (λ _ s, is_Some (rooms s !! r))).
    + by intros _ s s' (-> & _).
    + done.
    + done.
    + intros _ r' c s. unfold prune. simpl. by rewrite lookup_alter_is_Some.
    + intros ws' r' s. simpl. by rewrite lookup_alter_is_Some.
    + done.
Qed.

Lemma creator_kept_invariant (r u : string) :
  let I := λ (_ : option conn) s, tables_ok s ∧ roomCreators s !! r = Some u in
  (∀ e ws data st, I None st → I None (on_message e ws data st).2)
  ∧ (∀ e ws st, I None st → I None (on_close e ws st).2).
Proof.
  intros I.
  assert (∀ x s s', same_tables s s' → I x s → I x s') as Hsame.
  { intros x s s' (Hr & Hc & _) [Hok Hu]. split.
    - by apply (tables_ok_frame s).
    - by rewrite Hc. }
  assert (∀ x r' c s, I x s → I x (prune r' c s)) as Hprune.
  { intros x r' c s [Hok Hu]. split; [by apply tables_ok_prune|done]. }
  assert (∀ ws r' s, I (Some ws) s →
            I (Some ws) (with_rooms (alter (set_delete ws) r') s)) as Hunlist.
  { intros ws r' s [Hok Hu]. split; [|done].
    apply tables_ok_alter; [intros ?; apply NoDup_set_delete|done]. }
  assert (∀ ws s, I (Some ws) s → I (Some ws) (with_userRooms (delete ws) s))
    as Hunbind by (intros ws s [Hok Hu]; split; [by apply (tables_ok_frame s)|done]).
  split.
  - intros e ws data st. apply (on_message_keeps I); try done.
    + intros x r' u' s Habsent Hr' Hu' [Hok Hu]. split.
      * by apply tables_ok_ensure.
      * simpl. rewrite lookup_insert_ne; [done|]. intros ->.
        destruct Hok as (Hdom & _).
        assert (is_Some (rooms s !! r)) as [? ?] by (apply Hdom; by eexists).
        congruence.
    + intros ws' r' u' s _ _ _ [Hok Hu]. split; [by apply tables_ok_bind|done].
  - intros e ws st. apply (handleUserDisconnect_keeps I); done.
Qed.

(** X15: in every state the server goes through, the creator recorded for
    a room stays the same through every turn, until a sweep finds the
    room empty and deletes the room and the record together. *)
Theorem creator_fixed_until_swept e ev st r u :
  reachable st → roomCreators st !! r = Some u →
  roomCreators (handle_event e ev st).2 !! r = Some u
  ∨ (ev = EvSweep ∧ rooms st !! r = Some []
     ∧ rooms (handle_event e ev st).2 !! r = None
     ∧ roomCreators (handle_event e ev st).2 !! r = None).
Proof.
  intros Hreach Hu.
  pose proof (reachable_tables st Hreach) as Hok.
  destruct (creator_kept_invariant r u) as [Hmessage Hclose].
  destruct ev as [ws data|ws|]; simpl.
  - left. by apply Hmessage.
  - left. by apply Hclose.
  - rewrite reaper_creators, reaper_rooms.
    destruct (decide (rooms st !! r = Some [])) as [Hempty|_]; [|by left].
    right. by rewrite Hempty.
Qed.

(** X17: a fan-out to a room that is not in the table does nothing.  A
    fan-out to a room leaves every other member set, every creator record
    and every socket property as it was, changes no binding other than
    those of members of that room, and neither unbinds nor sends to the
    excluded socket. *)
Theorem broadcast_touches_one_room e roomId m excludeWs st :
  (rooms st !! roomId = None →
     broadcastToRoom e roomId m excludeWs st = (Normal, st))
  ∧ (∀ r, r ≠ roomId →
       rooms (broadcastToRoom e roomId m excludeWs st).2 !! r = rooms st !! r)
  ∧ roomCreators (broadcastToRoom e roomId m excludeWs st).2 = roomCreators st
  ∧ ws_roomId (broadcastToRoom e roomId m excludeWs st).2 = ws_roomId st
  ∧ ws_username (broadcastToRoom e roomId m excludeWs st).2 = ws_username st
  ∧ (∀ c room, rooms st !! roomId = Some room →
       c ∉ room ∨ excludeWs = Some c →
       userRooms (broadcastToRoom e roomId m excludeWs st).2 !! c
       = userRooms st !! c)
  ∧ (∀ c m', excludeWs = Some c →
       (c, m') ∈ sent (broadcastToRoom e roomId m excludeWs st).2 →
       (c, m') ∈ sent st).
Proof.
  split; [apply broadcast_absent|].
  destruct (broadcast_fixed e roomId m excludeWs st) as (Hc & Hid & Hname).
  split; [|split; [done|split; [done|split; [done|split]]]].
  - intros r Hne. destruct (rooms st !! roomId) as [room|] eqn:Hroom;
      [|by rewrite broadcast_absent].
    by rewrite (broadcast_rooms _ _ _ _ _ _ Hroom), lookup_insert_ne.
  - intros c room Hroom Hc'.
    rewrite (broadcast_userRooms _ _ _ _ _ _ _ Hroom).
    rewrite decide_False; [done|]. rewrite elem_of_pruned.
    intros [Hp Hin]. destruct Hc' as [?| ->]; [done|].
    by rewrite prunable_not_excluded in Hp.
  - intros c m' -> Hin.
    destruct (rooms st !! roomId) as [room|] eqn:Hroom;
      [|by rewrite broadcast_absent in Hin].
    rewrite (broadcast_sent _ _ _ _ _ _ Hroom) in Hin.
    apply elem_of_app in Hin as [?|Hin]; [done|].
    by destruct (deliveries_excluded _ _ _ _ _ _ Hin).
Qed.

(** ** Worked cases of the further properties *)

Lemma two_in_R1_reachable : reachable two_in_R1.
Proof. apply reachable_run. constructor. Qed.

(** X1, a concrete case: the handler of Alice's chat message throws in
    its log line. *)
Lemma message_listener_raises_only_with_own_send_witness :
  handleMessage (calm 3) alice_ws (chat_message "R1" unprintable_payload)
    two_in_R1 = (Threw, two_in_R1)
  ∧ on_message (calm 3) alice_ws
      (Some (chat_message "R1" unprintable_payload)) two_in_R1
    = ws_send (calm 3) alice_ws
        (JObj [("type", JStr "error");
               ("message", JStr "Invalid message format");
               ("timestamp", JNum 3)]) two_in_R1.
Proof.
  assert (handleMessage (calm 3) alice_ws
            (chat_message "R1" unprintable_payload) two_in_R1
          = (Threw, two_in_R1)) as Hthrew by (vm_compute; reflexivity).
  split; [exact Hthrew|].
  destruct (message_listener_raises_only_with_own_send (calm 3) alice_ws
              (Some (chat_message "R1" unprintable_payload)) two_in_R1)
    as [_ Hcatch].
  exact (Hcatch _ two_in_R1 eq_refl Hthrew).
Defined.

(** X22, a concrete case: Bob writes to "R1" without being in it. *)
Lemma chat_message_refusals_witness :
  rooms alice_in_R1 !! "R1" = Some [alice_ws]
  ∧ handleChatMessage (calm 3) bob_ws
      (chat_message "R1" [("author", JStr "bob"); ("text", JStr "hi")])
      alice_in_R1
    = ws_send (calm 3) bob_ws
        (JObj [("type", JStr "error");
               ("message", JStr "You are not in this room");
               ("roomId", JStr "R1"); ("timestamp", JNum 3)]) alice_in_R1.
Proof.
  assert (rooms alice_in_R1 !! "R1" = Some [alice_ws]) as Hroom
    by (vm_compute; reflexivity).
  split; [exact Hroom|].
  destruct (chat_message_refusals (calm 3) bob_ws
              (chat_message "R1" [("author", JStr "bob"); ("text", JStr "hi")])
              alice_in_R1) as [_ Hout].
  apply (Hout "R1" [("author", JStr "bob"); ("text", JStr "hi")]).
  - reflexivity.
  - reflexivity.
  - right. exists [alice_ws]. split; [exact Hroom|].
    intros Hin. apply list_elem_of_singleton in Hin. discriminate.
Defined.

(** X23, a concrete case: Alice writes to "R1", Bob is the other member. *)
Lemma chat_message_relay_witness :
  toString_throws
    (author_of [("author", JStr "alice"); ("text", JStr "hi")]) = false
  ∧ (handleChatMessage (calm 3) alice_ws
       (chat_message "R1" [("author", JStr "alice"); ("text", JStr "hi")])
       two_in_R1).1 = Normal.
Proof.
  split; [reflexivity|].
  destruct (chat_message_relay (calm 3) alice_ws
              (chat_message "R1" [("author", JStr "alice"); ("text", JStr "hi")])
              two_in_R1 "R1" [("author", JStr "alice"); ("text", JStr "hi")]
              [alice_ws; bob_ws]) as [_ Hrelay].
  - reflexivity.
  - reflexivity.
  - vm_compute. reflexivity.
  - constructor.
  - destruct (Hrelay eq_refl) as [Hnormal _]. exact Hnormal.
Defined.

(** X2, a concrete case: Alice pings. *)
Lemma other_input_is_only_answered_witness :
  msg_type ping = Str "ping"
  ∧ on_message (calm 3) alice_ws (Some ping) two_in_R1
    = ws_send (calm 3) alice_ws (pong_msg (calm 3)) two_in_R1
  ∧ same_tables two_in_R1
      (on_message (calm 3) alice_ws (Some ping) two_in_R1).2.
Proof.
  split; [reflexivity|].
  destruct (other_input_is_only_answered (calm 3) alice_ws two_in_R1)
    as (_ & Hping & _).
  apply (Hping ping). reflexivity.
Defined.

(** X3, a concrete case: a create with an empty room id. *)
Lemma create_or_join_without_fields_is_refused_witness :
  truthy (msg_roomId (create_room "" "alice")) = None
  ∧ handleCreateRoom (calm 3) alice_ws (create_room "" "alice") initial
    = ws_send (calm 3) alice_ws
        (error_room_msg "Room ID and username are required" (Str "") (calm 3))
        initial.
Proof.
  split; [reflexivity|].
  apply (create_or_join_without_fields_is_refused (calm 3) alice_ws
           (create_room "" "alice") initial).
  left. reflexivity.
Defined.

(** X4, a concrete case: Bob creates "R2" while Alice is in "R1". *)
Lemma create_room_opens_new_room_witness :
  rooms alice_in_R1 !! "R2" = None
  ∧ rooms (handleCreateRoom (calm 2) bob_ws (create_room "R2" "bob")
             alice_in_R1).2 !! "R2" = Some [bob_ws]
  ∧ roomCreators (handleCreateRoom (calm 2) bob_ws (create_room "R2" "bob")
                    alice_in_R1).2
    = <["R2" := "bob"]> (roomCreators alice_in_R1).
Proof.
  assert (rooms alice_in_R1 !! "R2" = None) as Habsent
    by (vm_compute; reflexivity).
  split; [exact Habsent|].
  destruct (create_room_opens_new_room (calm 2) bob_ws
              (create_room "R2" "bob") alice_in_R1 "R2" "bob"
              eq_refl eq_refl Habsent) as (Hroom & Hcreator & _).
  split; [exact Hroom|exact Hcreator].
Defined.



(** X7, a concrete case: Alice, in "R1" with Bob, sends a create for "R1". *)
Lemma create_room_in_own_room_leaves_and_rejoins_witness :
  userRooms two_in_R1 !! alice_ws = Some "R1"
  ∧ rooms (handleCreateRoom (calm 3) alice_ws (create_room "R1" "alice2")
             two_in_R1).2 !! "R1"
    = Some (if sendThrows (calm 3) alice_ws
            then survivors (calm 3) (Some alice_ws)
                   (set_delete alice_ws [alice_ws; bob_ws]) ++ [alice_ws]
            else survivors (calm 3) (Some alice_ws)
                   (survivors (calm 3) (Some alice_ws)
                      (set_delete alice_ws [alice_ws; bob_ws])
                    ++ [alice_ws])).
Proof.
  assert (userRooms two_in_R1 !! alice_ws = Some "R1") as Hbound
    by (vm_compute; reflexivity).
  split; [exact Hbound|].
  apply (create_room_in_own_room_leaves_and_rejoins (calm 3) alice_ws
           (create_room "R1" "alice2") two_in_R1 "R1" "alice2"
           [alice_ws; bob_ws]).
  - reflexivity.
  - reflexivity.
  - exact Hbound.
  - vm_compute. reflexivity.
Defined.




(** X12, a concrete case: the state with Alice and Bob in "R1". *)
Lemma rooms_and_creators_agree_witness :
  rooms two_in_R1 !! "R1" = Some [alice_ws; bob_ws]
  ∧ NoDup [alice_ws; bob_ws]
  ∧ is_Some (roomCreators two_in_R1 !! "R1").
Proof.
  assert (rooms two_in_R1 !! "R1" = Some [alice_ws; bob_ws]) as Hroom
    by (vm_compute; reflexivity).
  destruct (rooms_and_creators_agree two_in_R1 two_in_R1_reachable)
    as (Hdom & Hrooms).
  split; [exact Hroom|].
  split; [exact (Hrooms "R1" [alice_ws; bob_ws] Hroom)|].
  apply Hdom. exists [alice_ws; bob_ws]. exact Hroom.
Defined.

(** X13, a concrete case: Bob in "R1". *)
Lemma bound_socket_names_its_room_witness :
  userRooms two_in_R1 !! bob_ws = Some "R1"
  ∧ prop_roomId two_in_R1 bob_ws = Str "R1".
Proof.
  assert (userRooms two_in_R1 !! bob_ws = Some "R1") as Hbound
    by (vm_compute; reflexivity).
  split; [exact Hbound|].
  apply (bound_socket_names_its_room two_in_R1 bob_ws "R1"
           two_in_R1_reachable Hbound).
Defined.

(** X14, a concrete case: the status entry of "R1". *)
Lemma status_reports_recorded_creator_witness :
  ∃ creator,
    roomCreators two_in_R1 !! "R1" = Some creator ∧ creator ≠ ""
    ∧ status_room two_in_R1 "R1" [alice_ws; bob_ws]
      = JObj [("roomId", JStr "R1");
              ("participantCount",
               JNum (Z.of_nat (length [alice_ws; bob_ws])));
              ("creator", JStr creator)].
Proof.
  apply (status_reports_recorded_creator two_in_R1 "R1" [alice_ws; bob_ws]
           two_in_R1_reachable).
  vm_compute. reflexivity.
Defined.

(** X15, a concrete case: Alice, the creator of "R1", disconnects. *)
Lemma creator_fixed_until_swept_witness :
  roomCreators two_in_R1 !! "R1" = Some "alice"
  ∧ (roomCreators (handle_event (calm 3) (EvClose alice_ws) two_in_R1).2
       !! "R1" = Some "alice"
     ∨ (EvClose alice_ws = EvSweep ∧ rooms two_in_R1 !! "R1" = Some []
        ∧ rooms (handle_event (calm 3) (EvClose alice_ws) two_in_R1).2
            !! "R1" = None
        ∧ roomCreators (handle_event (calm 3) (EvClose alice_ws)
                          two_in_R1).2 !! "R1" = None)).
Proof.
  assert (roomCreators two_in_R1 !! "R1" = Some "alice") as Hcreator
    by (vm_compute; reflexivity).
  split; [exact Hcreator|].
  apply (creator_fixed_until_swept (calm 3) (EvClose alice_ws) two_in_R1
           "R1" "alice" two_in_R1_reachable Hcreator).
Defined.

(** X16, a concrete case: Alice, alone in "R1", leaves. *)
Lemma rooms_outlive_their_members_witness :
  is_Some (rooms alice_in_R1 !! "R1")
  ∧ is_Some (rooms (on_message (calm 2) alice_ws
                      (Some (leave_room Undefined)) alice_in_R1).2 !! "R1").
Proof.
  assert (is_Some (rooms alice_in_R1 !! "R1")) as Hroom
    by (exists [alice_ws]; vm_compute; reflexivity).
  split; [exact Hroom|].
  apply (rooms_outlive_their_members (calm 2) alice_ws
           (Some (leave_room Undefined)) alice_in_R1 "R1" Hroom).
Defined.

(** X17, a concrete case: a fan-out to "R1" and the set of "R2". *)
Lemma broadcast_touches_one_room_witness :
  rooms (broadcastToRoom (throwing_for alice_ws 3) "R1" (JStr "m") None
           split_rooms).2 !! "R2" = rooms split_rooms !! "R2".
Proof.
  destruct (broadcast_touches_one_room (throwing_for alice_ws 3) "R1"
              (JStr "m") None split_rooms) as (_ & Hother & _).
  apply Hother. discriminate.
Defined.


(** ** Members are bound, as long as leaves are tidy *)

Lemma members_ok_same_tables x st st' :
  same_tables st st' → members_ok x st → members_ok x st'.
Proof.
  intros (Hr & _ & Hu & _) Hok r room c. rewrite Hr, Hu. apply Hok.
Qed.

Lemma members_ok_frame x st st' :
  rooms st' = rooms st → userRooms st' = userRooms st →
  members_ok x st → members_ok x st'.
Proof. unfold members_ok. by intros -> ->. Qed.

Lemma members_ok_settle ws st : members_ok (Some ws) st → members_ok None st.
Proof.
  intros Hok r room c Hroom Hc. destruct (Hok r room c Hroom Hc). done.
Qed.

Lemma members_ok_unbound ws st :
  members_ok None st → userRooms st !! ws = None → members_ok (Some ws) st.
Proof.
  intros Hok Hfree r room c Hroom Hc.
  destruct (Hok r room c Hroom Hc) as [_ Hbound].
  split; [congruence|done].
Qed.

Lemma broadcast_members_ok x e roomId m excludeWs st :
  members_ok x st → members_ok x (broadcastToRoom e roomId m excludeWs st).2.
Proof.
  intros Hok. destruct (rooms st !! roomId) as [room0|] eqn:Hroom0;
    [|by rewrite broadcast_absent].
  intros r room c.
  rewrite (broadcast_rooms _ _ _ _ _ _ Hroom0),
    (broadcast_userRooms _ _ _ _ _ _ _ Hroom0).
  destruct (decide (roomId = r)) as [->|Hne].
  - rewrite lookup_insert_eq. intros [= <-] Hc.
    apply elem_of_survivors in Hc as [Hkept Hc].
    rewrite decide_False by (rewrite elem_of_pruned; tauto).
    by apply (Hok r room0).
  - rewrite lookup_insert_ne by done. intros Hroom Hc.
    destruct (Hok r room c Hroom Hc) as [Hx Hbound].
    rewrite decide_False; [done|].
    intros [_ Hin]%elem_of_pruned.
    destruct (Hok roomId room0 c Hroom0 Hin) as [_ Hbound']. congruence.
Qed.

Lemma members_ok_remove ws r st :
  members_ok None st →
  (∀ held, userRooms st !! ws = Some held → held = r) →
  members_ok (Some ws) (with_rooms (alter (set_delete ws) r) st).
Proof.
  intros Hok Hheld r' room c. simpl. rewrite lookup_alter.
  destruct (decide (r = r')) as [<-|Hne].
  - destruct (rooms st !! r) as [room0|] eqn:Hroom0; [|done].
    intros [= <-] [Hc Hin]%elem_of_set_delete.
    destruct (Hok r room0 c Hroom0 Hin) as [_ Hbound].
    split; [congruence|done].
  - intros Hroom Hc. destruct (Hok r' room c Hroom Hc) as [_ Hbound].
    split; [|done]. intros [= <-]. apply Hne. symmetry. by apply Hheld.
Qed.

Lemma members_ok_bind ws r u st :
  members_ok (Some ws) st →
  members_ok None
    (bind_socket ws r u (with_rooms (alter (set_add ws) r) st)).
Proof.
  intros Hok r' room c. simpl. rewrite lookup_alter.
  destruct (decide (r = r')) as [<-|Hne].
  - destruct (rooms st !! r) as [room0|] eqn:Hroom0; [|done].
    intros [= <-] [->|Hin]%elem_of_set_add.
    + by rewrite lookup_insert_eq.
    + destruct (Hok r room0 c Hroom0 Hin) as [Hc Hbound].
      rewrite lookup_insert_ne by congruence. done.
  - intros Hroom Hin. destruct (Hok r' room c Hroom Hin) as [Hc Hbound].
    rewrite lookup_insert_ne by congruence. done.
Qed.

Lemma members_ok_rebind ws r u st :
  members_ok None st → userRooms st !! ws = Some r →
  members_ok None
    (bind_socket ws r u (with_rooms (alter (set_add ws) r) st)).
Proof.
  intros Hok Hheld r' room c. simpl. rewrite lookup_alter.
  destruct (decide (r = r')) as [<-|Hne].
  - destruct (rooms st !! r) as [room0|] eqn:Hroom0; [|done].
    intros [= <-] Hin. split; [done|].
    destruct (decide (ws = c)) as [->|Hc]; [by rewrite lookup_insert_eq|].
    rewrite lookup_insert_ne by done.
    apply elem_of_set_add in Hin as [->|Hin]; [done|].
    by destruct (Hok r room0 c Hroom0 Hin).
  - intros Hroom Hin. destruct (Hok r' room c Hroom Hin) as [_ Hbound].
    split; [done|]. rewrite lookup_insert_ne; [done|].
    intros ->. congruence.
Qed.

Lemma members_ok_removed ws r st :
  members_ok None st →
  (∀ held, userRooms st !! ws = Some held → held = r) →
  members_ok None (remove_socket ws r st).
Proof.
  intros Hok Hheld. apply (members_ok_settle ws).
  pose proof (members_ok_remove ws r st Hok Hheld) as Hremoved.
  intros r' room c Hroom Hc. unfold remove_socket in *. simpl in *.
  destruct (Hremoved r' room c Hroom Hc) as [Hne Hbound].
  split; [done|]. rewrite lookup_delete_ne; [done|]. congruence.
Qed.

Lemma ensure_room_members_ok roomId username st :
  members_ok None st → members_ok None (ensure_room roomId username st).2.
Proof.
  intros Hok. unfold ensure_room.
  destruct (rooms st !! roomId) eqn:Habsent; [done|].
  intros r room c. simpl. rewrite lookup_insert.
  destruct (decide (roomId = r)) as [->|_]; [|by apply Hok].
  intros [= <-] Hc. by apply elem_of_nil in Hc.
Qed.

Lemma leave_previous_create_members_ok e ws username st :
  bindings_ok None st → members_ok None st →
  members_ok (Some ws) (leave_previous_create e ws username st).2.
Proof.
  intros Hbind Hok. unfold leave_previous_create.
  destruct (userRooms st !! ws) as [prev|] eqn:Hheld;
    [|by apply members_ok_unbound].
  destruct (Hbind ws prev) as (_ & _ & room & Hroom & _); [done|done|].
  rewrite Hroom. apply broadcast_members_ok, members_ok_remove; [done|].
  intros held. rewrite Hheld. by intros [= <-].
Qed.

Lemma handleCreateRoom_members_ok e ws message st :
  bindings_ok None st → members_ok None st →
  members_ok None (handleCreateRoom e ws message st).2.
Proof.
  intros Hbind Hok.
  assert (∀ m, members_ok None (ws_send e ws m st).2) as Hreply
    by (intros m; apply (members_ok_same_tables _ st);
        [apply ws_send_same_tables|done]).
  destruct (truthy (msg_roomId message)) as [roomId|] eqn:Hr;
    [|unfold handleCreateRoom; by rewrite Hr].
  destruct (truthy (msg_username message)) as [username|] eqn:Hu;
    [|unfold handleCreateRoom; by rewrite Hr, Hu].
  destruct (handleCreateRoom_steps e ws message st roomId username Hr Hu)
    as (room2 & _ & _ & ->).
  assert (members_ok None
            (bind_socket ws roomId username
               (with_rooms (alter (set_add ws) roomId)
                  (leave_previous_create e ws username
                     (ensure_room roomId username st).2).2))) as Hst3.
  { apply members_ok_bind, leave_previous_create_members_ok.
    - by apply ensure_room_bindings_ok.
    - by apply ensure_room_members_ok. }
  destruct (sendThrows e ws); [done|].
  apply broadcast_members_ok. revert Hst3.
  apply members_ok_same_tables. apply with_sent_same_tables.
Qed.

Lemma handleJoinRoom_members_ok e ws message st :
  bindings_ok None st → members_ok None st →
  members_ok None (handleJoinRoom e ws message st).2.
Proof.
  intros Hbind Hok.
  assert (∀ m, members_ok None (ws_send e ws m st).2) as Hreply
    by (intros m; apply (members_ok_same_tables _ st);
        [apply ws_send_same_tables|done]).
  destruct (truthy (msg_roomId message)) as [roomId|] eqn:Hr;
    [|unfold handleJoinRoom; by rewrite Hr].
  destruct (truthy (msg_username message)) as [username|] eqn:Hu;
    [|unfold handleJoinRoom; by rewrite Hr, Hu].
  destruct (rooms st !! roomId) as [room|] eqn:Hroom;
    [|unfold handleJoinRoom; by rewrite Hr, Hu, Hroom].
  destruct (name_taken st room ws username) eqn:Htaken;
    [unfold handleJoinRoom; by rewrite Hr, Hu, Hroom, Htaken|].
  destruct (handleJoinRoom_accepted e ws message st roomId username room
              Hr Hu Hroom Htaken) as [_ ->].
  assert (members_ok None
            (bind_socket ws roomId username
               (with_rooms (alter (set_add ws) roomId)
                  (leave_previous_join e ws roomId username st).2))) as Hst2.
  { unfold leave_previous_join.
    destruct (userRooms st !! ws) as [prev|] eqn:Hheld;
      [|by apply members_ok_bind, members_ok_unbound].
    destruct (Hbind ws prev) as (_ & _ & proom & Hprev & _); [done|done|].
    rewrite Hprev. destruct (decide (prev = roomId)) as [->|Hne].
    - by apply members_ok_rebind.
    - apply members_ok_bind, broadcast_members_ok, members_ok_remove;
        [done|]. intros held. rewrite Hheld. by intros [= <-]. }
  destruct (sendThrows e ws); [done|].
  apply broadcast_members_ok. revert Hst2.
  apply members_ok_same_tables. apply with_sent_same_tables.
Qed.

Lemma handleChatMessage_members_ok e ws message st :
  members_ok None st → members_ok None (handleChatMessage e ws message st).2.
Proof.
  intros Hok.
  assert (∀ m, members_ok None (ws_send e ws m st).2) as Hreply
    by (intros m; apply (members_ok_same_tables _ st);
        [apply ws_send_same_tables|done]).
  unfold handleChatMessage.
  destruct (truthy (msg_roomId message)) as [roomId|]; [|done].
  destruct (msg_message message); [|done].
  destruct (rooms st !! roomId) as [room|]; [|done].
  destruct (set_has ws room); [|done].
  rewrite log_template_then. destruct (existsb _ _); [done|].
  by apply broadcast_members_ok.
Qed.

Lemma handleLeaveRoom_members_ok e ws message st :
  bindings_ok None st → members_ok None st →
  (∀ r held, truthy (msg_roomId message) = Some r → is_Some (rooms st !! r) →
             userRooms st !! ws = Some held → held = r) →
  members_ok None (handleLeaveRoom e ws message st).2.
Proof.
  intros Hbind Hok Htidy.
  destruct (truthy (js_or (msg_roomId message) (prop_roomId st ws)))
    as [roomId|] eqn:Hr; [|unfold handleLeaveRoom; by rewrite Hr].
  destruct (rooms st !! roomId) as [room|] eqn:Hroom;
    [|unfold handleLeaveRoom; by rewrite Hr, Hroom].
  rewrite (handleLeaveRoom_resolved _ _ _ _ _ _ Hr Hroom).
  eapply members_ok_same_tables; [apply ws_send_same_tables|].
  eapply (members_ok_frame _ (broadcastToRoom _ _ _ _ _).2); [done|done|].
  apply broadcast_members_ok, members_ok_removed; [done|].
  intros held Hheld. unfold js_or in Hr.
  destruct (truthy (msg_roomId message)) as [r|] eqn:Hmsg.
  - rewrite Hmsg in Hr. injection Hr as ->.
    by apply (Htidy roomId held).
  - destruct (Hbind ws held) as (Hne & Hid & _); [done|done|].
    rewrite Hid, (truthy_Str _ Hne) in Hr. congruence.
Qed.

Lemma handleUserDisconnect_members_ok e ws st :
  bindings_ok None st → members_ok None st →
  members_ok None (handleUserDisconnect e ws st).2.
Proof.
  intros Hbind Hok. unfold handleUserDisconnect.
  destruct (truthy (prop_roomId st ws)) as [roomId|] eqn:Hr; [|done].
  destruct (rooms st !! roomId); [|done].
  assert (members_ok None (remove_socket ws roomId st)) as Hremoved.
  { apply members_ok_removed; [done|]. intros held Hheld.
    destruct (Hbind ws held) as (Hne & Hid & _); [done|done|].
    rewrite Hid, (truthy_Str _ Hne) in Hr. congruence. }
  destruct (truthy (prop_username st ws)); [|done].
  by apply broadcast_members_ok.
Qed.

Lemma reaper_members_ok st : members_ok None st → members_ok None (reaper st).
Proof.
  intros Hok r room c Hroom Hc. destruct (reaper_fixed st) as (-> & _).
  rewrite reaper_rooms in Hroom. destruct (decide _); [done|].
  by apply (Hok r room c).
Qed.

Lemma handle_event_members_ok e ev st :
  bindings_ok None st → members_ok None st → tidy_event st ev →
  members_ok None (handle_event e ev st).2.
Proof.
  intros Hbind Hok Htidy.
  destruct ev as [ws [message|]|ws|]; simpl.
  - assert (members_ok None (handleMessage e ws message st).2) as Hafter.
    { destruct message as [ty rid un payload]. simpl in Htidy.
      unfold handleMessage. simpl.
      repeat (first
        [ apply handleCreateRoom_members_ok; [exact Hbind|exact Hok]
        | apply handleJoinRoom_members_ok; [exact Hbind|exact Hok]
        | apply handleChatMessage_members_ok; exact Hok
        | apply handleLeaveRoom_members_ok;
            [exact Hbind|exact Hok|exact (Htidy eq_refl)]
        | apply (members_ok_same_tables _ st);
            [apply ws_send_same_tables|exact Hok]
        | match goal with
          | |- context [match ?x with _ => _ end] => destruct x
          end ]). }
    unfold on_message.
    destruct (handleMessage e ws message st) as [[] st']; [done|].
    revert Hafter. apply members_ok_same_tables. apply ws_send_same_tables.
  - unfold on_message.
    apply (members_ok_same_tables _ st); [apply ws_send_same_tables|done].
  - by apply handleUserDisconnect_members_ok.
  - by apply reaper_members_ok.
Qed.

Lemma reachable_tidy_reachable st : reachable_tidy st → reachable st.
Proof. induction 1; by constructor. Qed.

(** X19: as long as no [leave_room] names an existing room other than the
    one its sender is bound to, every member of a member set is bound to
    that room, so a socket is in at most one member set. *)
Theorem tidy_leaves_keep_members_bound st :
  reachable_tidy st →
  (∀ r room c, rooms st !! r = Some room → c ∈ room →
               userRooms st !! c = Some r)
  ∧ (∀ r r' room room' c,
       rooms st !! r = Some room → rooms st !! r' = Some room' →
       c ∈ room → c ∈ room' → r = r').
Proof.
  intros Htidy.
  assert (members_ok None st) as Hok.
  { induction Htidy as [|e ev st Hst IH Hev].
    - intros r room c Hroom.
      change (rooms initial) with (∅ : gmap string (list conn)) in Hroom.
      by rewrite lookup_empty in Hroom.
    - apply handle_event_members_ok; [|done|done].
      by apply reachable_bindings_ok, reachable_tidy_reachable. }
  split.
  - intros r room c Hroom Hc. by destruct (Hok r room c Hroom Hc).
  - intros r r' room room' c Hroom Hroom' Hc Hc'.
    destruct (Hok r room c Hroom Hc) as [_ Hb].
    destruct (Hok r' room' c Hroom' Hc') as [_ Hb']. congruence.
Qed.

Lemma two_in_R1_tidy : reachable_tidy two_in_R1.
Proof.
  apply (tidy_turn (calm 2) (receives bob_ws (join_room "R1" "bob"))).
  - apply (tidy_turn (calm 1) (receives alice_ws (create_room "R1" "alice"))).
    + constructor.
    + intros Hty. discriminate Hty.
  - intros Hty. discriminate Hty.
Qed.

(** X19, a concrete case: Alice and Bob in "R1". *)
Lemma tidy_leaves_keep_members_bound_witness :
  rooms two_in_R1 !! "R1" = Some [alice_ws; bob_ws]
  ∧ userRooms two_in_R1 !! bob_ws = Some "R1".
Proof.
  assert (rooms two_in_R1 !! "R1" = Some [alice_ws; bob_ws]) as Hroom
    by (vm_compute; reflexivity).
  split; [exact Hroom|].
  destruct (tidy_leaves_keep_members_bound two_in_R1 two_in_R1_tidy)
    as (Hmembers & _).
  apply (Hmembers "R1" [alice_ws; bob_ws] bob_ws Hroom).
  right. left.
Defined.

(** ** Names stay distinct, as long as turns are civil *)

Lemma shrinks_refl st : shrinks st st.
Proof. split; [|done]. intros r room Hroom. eauto. Qed.

Lemma shrinks_trans st1 st2 st3 :
  shrinks st1 st2 → shrinks st2 st3 → shrinks st1 st3.
Proof.
  intros [H12 Hn12] [H23 Hn23]. split; [|congruence].
  intros r room3 Hroom3.
  destruct (H23 r room3 Hroom3) as (room2 & Hroom2 & Hsub23).
  destruct (H12 r room2 Hroom2) as (room1 & Hroom1 & Hsub12).
  exists room1. split; [done|]. auto.
Qed.

Lemma same_tables_shrinks st st' : same_tables st st' → shrinks st st'.
Proof.
  intros (Hr & _ & _ & _ & Hn). split; [|done]. rewrite Hr. eauto.
Qed.

Lemma broadcast_shrinks e roomId m excludeWs st :
  shrinks st (broadcastToRoom e roomId m excludeWs st).2.
Proof.
  destruct (rooms st !! roomId) as [room0|] eqn:Hroom0;
    [|rewrite broadcast_absent by done; apply shrinks_refl].
  destruct (broadcast_fixed e roomId m excludeWs st) as (_ & _ & Hn).
  split; [|done]. intros r room'.
  rewrite (broadcast_rooms _ _ _ _ _ _ Hroom0).
  destruct (decide (roomId = r)) as [->|Hne].
  - rewrite lookup_insert_eq. intros [= <-]. exists room0. split; [done|].
    intros c Hc. by apply elem_of_survivors in Hc as [_ Hc].
  - rewrite lookup_insert_ne by done. eauto.
Qed.

Lemma unlist_shrinks ws r st :
  shrinks st (with_rooms (alter (set_delete ws) r) st).
Proof.
  split; [|done]. intros r' room'. simpl. rewrite lookup_alter.
  destruct (decide (r = r')) as [<-|_]; [|by eauto].
  destruct (rooms st !! r) as [room0|]; [|done].
  intros [= <-]. exists room0. split; [done|].
  intros c Hc. by apply elem_of_set_delete in Hc as [_ Hc].
Qed.

Lemma remove_socket_shrinks ws r st : shrinks st (remove_socket ws r st).
Proof.
  destruct (unlist_shrinks ws r st) as [Hsub Hn]. by split.
Qed.

Lemma reaper_shrinks st : shrinks st (reaper st).
Proof.
  destruct (reaper_fixed st) as (_ & _ & Hn & _). split; [|done].
  intros r room'. rewrite reaper_rooms. destruct (decide _); [done|]. eauto.
Qed.

Lemma leave_previous_create_shrinks e ws username st :
  shrinks st (leave_previous_create e ws username st).2.
Proof.
  unfold leave_previous_create.
  destruct (userRooms st !! ws) as [prev|]; [|apply shrinks_refl].
  destruct (rooms st !! prev); [|apply shrinks_refl].
  eapply shrinks_trans; [apply (unlist_shrinks ws prev)|].
  apply broadcast_shrinks.
Qed.

Lemma leave_previous_join_shrinks e ws roomId username st :
  shrinks st (leave_previous_join e ws roomId username st).2.
Proof.
  unfold leave_previous_join.
  destruct (userRooms st !! ws) as [prev|]; [|apply shrinks_refl].
  destruct (rooms st !! prev); [|apply shrinks_refl].
  destruct (decide (prev = roomId)); [apply shrinks_refl|].
  eapply shrinks_trans; [apply (unlist_shrinks ws prev)|].
  apply broadcast_shrinks.
Qed.

Lemma names_all_shrinks st st' : shrinks st st' → names_all st → names_all st'.
Proof.
  intros [Hsub Hn] Hall r room' Hroom' c d u Hc Hd.
  destruct (Hsub r room' Hroom') as (room & Hroom & Hin).
  unfold prop_username. rewrite Hn. apply (Hall r room Hroom); auto.
Qed.

Lemma names_all_clear ws a st :
  names_all st → names_all (with_props ws a Null st).
Proof.
  intros Hall r room Hroom c d u Hc Hd. unfold prop_username. simpl.
  destruct (decide (ws = c)) as [->|Hcne]; [by rewrite lookup_insert_eq|].
  destruct (decide (ws = d)) as [->|Hdne];
    [by rewrite (lookup_insert_eq _ d)|].
  rewrite !lookup_insert_ne by done. by apply (Hall r room Hroom).
Qed.

Lemma names_all_ensure roomId username st :
  names_all st → names_all (ensure_room roomId username st).2.
Proof.
  intros Hall. unfold ensure_room.
  destruct (rooms st !! roomId) eqn:Habsent; [done|].
  intros r room. simpl. rewrite lookup_insert.
  destruct (decide (roomId = r)) as [->|_]; [|by apply Hall].
  intros [= <-] c d u Hc. by apply elem_of_nil in Hc.
Qed.

(** Binding [ws] under a name nobody else in the room holds. *)
Lemma names_all_bind ws r u st room :
  names_all st → rooms st !! r = Some room →
  (∀ d, d ∈ room → prop_username st d = Str u → d = ws) →
  (∀ r' room', r' ≠ r → rooms st !! r' = Some room' → ws ∉ room') →
  names_all (bind_socket ws r u (with_rooms (alter (set_add ws) r) st)).
Proof.
  intros Hall Hroom Hfree Helsewhere r' room' Hroom' c d u' Hc Hd.
  simpl in Hroom'. rewrite lookup_alter in Hroom'.
  unfold prop_username. simpl.
  assert (∀ x, x ≠ ws → x ∈ room' →
               ∃ room0, rooms st !! r' = Some room0 ∧ x ∈ room0) as Hold.
  { intros x Hx Hin. destruct (decide (r = r')) as [<-|Hne].
    - rewrite Hroom in Hroom'. injection Hroom' as <-.
      apply elem_of_set_add in Hin as [->|Hin]; [done|]. eauto.
    - eauto. }
  destruct (decide (ws = c)) as [<-|Hcne];
    destruct (decide (ws = d)) as [<-|Hdne]; [done| | |].
  - rewrite lookup_insert_eq, lookup_insert_ne by done.
    intros [= <-] Hdu. destruct (Hold d) as (room0 & Hroom0 & Hin);
      [congruence|done|].
    destruct (decide (r = r')) as [<-|Hne].
    + symmetry. apply Hfree; [congruence|done].
    + destruct (decide (r = r')) as [|_]; [done|].
      by destruct (Helsewhere r' room'); [congruence| |].
  - rewrite lookup_insert_eq, lookup_insert_ne by done.
    intros Hcu [= <-]. destruct (Hold c) as (room0 & Hroom0 & Hin);
      [congruence|done|].
    destruct (decide (r = r')) as [<-|Hne].
    + apply Hfree; [congruence|done].
    + destruct (decide (r = r')) as [|_]; [done|].
      by destruct (Helsewhere r' room'); [congruence| |].
  - rewrite !lookup_insert_ne by done. intros Hcu Hdu.
    destruct (Hold c) as (room0 & Hroom0 & Hin0); [congruence|done|].
    destruct (Hold d) as (room1 & Hroom1 & Hin1); [congruence|done|].
    assert (room1 = room0) as -> by congruence.
    by apply (Hall r' room0 Hroom0 c d u').
Qed.

Lemma ws_send_names_all e ws m st :
  names_all st → names_all (ws_send e ws m st).2.
Proof. apply names_all_shrinks, same_tables_shrinks, ws_send_same_tables. Qed.

Lemma handleCreateRoom_names_all e ws message st :
  bindings_ok None st → members_ok None st → names_all st →
  (∀ r u room, truthy (msg_roomId message) = Some r →
               truthy (msg_username message) = Some u →
               rooms st !! r = Some room →
               name_taken st room ws u = false) →
  names_all (handleCreateRoom e ws message st).2.
Proof.
  intros Hbind Hok Hall Hcivil.
  destruct (truthy (msg_roomId message)) as [roomId|] eqn:Hr;
    [|unfold handleCreateRoom; rewrite Hr; by apply ws_send_names_all].
  destruct (truthy (msg_username message)) as [username|] eqn:Hu;
    [|unfold handleCreateRoom; rewrite Hr, Hu; by apply ws_send_names_all].
  destruct (handleCreateRoom_steps e ws message st roomId username Hr Hu)
    as (room2 & Hroom2 & _ & ->).
  set (st1 := (ensure_room roomId username st).2) in *.
  set (st2 := (leave_previous_create e ws username st1).2) in *.
  assert (names_all
            (bind_socket ws roomId username
               (with_rooms (alter (set_add ws) roomId) st2))) as Hst3.
  { pose proof (leave_previous_create_shrinks e ws username st1) as Hshrink.
    apply (names_all_bind _ _ _ _ room2); [| done | |].
    - by apply (names_all_shrinks st1), names_all_ensure.
    - intros d Hd Hname. destruct Hshrink as [Hsub Hn].
      destruct (Hsub roomId room2 Hroom2) as (room1 & Hroom1 & Hin).
      unfold prop_username in Hname. fold st2 in Hn. rewrite Hn in Hname.
      unfold st1, ensure_room in Hroom1, Hname.
      destruct (rooms st !! roomId) as [room|] eqn:Hroom; simpl in *.
      + rewrite Hroom in Hroom1. injection Hroom1 as <-.
        apply (proj1 (name_taken_false st room ws username)
                 (Hcivil _ _ _ eq_refl eq_refl Hroom)); [by apply Hin|done].
      + rewrite lookup_insert_eq in Hroom1. injection Hroom1 as <-.
        by apply Hin, elem_of_nil in Hd.
    - intros r' room' _ Hroom' Hin.
      assert (members_ok (Some ws) st2) as Hmem.
      { apply leave_previous_create_members_ok.
        - by apply ensure_room_bindings_ok.
        - by apply ensure_room_members_ok. }
      by destruct (Hmem r' room' ws Hroom' Hin). }
  destruct (sendThrows e ws); [done|].
  apply (names_all_shrinks (with_sent (λ l, l ++ [(ws, room_created_msg roomId username e)])
            (bind_socket ws roomId username
               (with_rooms (alter (set_add ws) roomId) st2))));
    [apply broadcast_shrinks|].
  revert Hst3. apply names_all_shrinks, same_tables_shrinks.
  apply with_sent_same_tables.
Qed.

Lemma leave_previous_join_elsewhere e ws roomId username st :
  bindings_ok None st → members_ok None st →
  ∀ r' room', r' ≠ roomId →
    rooms (leave_previous_join e ws roomId username st).2 !! r' = Some room' →
    ws ∉ room'.
Proof.
  intros Hbind Hok r' room' Hne. unfold leave_previous_join.
  destruct (userRooms st !! ws) as [prev|] eqn:Hheld.
  - destruct (Hbind ws prev) as (_ & _ & proom & Hprev & _); [done|done|].
    rewrite Hprev. destruct (decide (prev = roomId)) as [->|Hdiff].
    + intros Hroom' Hin. destruct (Hok r' room' ws Hroom' Hin). congruence.
    + intros Hroom' Hin.
      assert (members_ok (Some ws)
                (broadcastToRoom e prev (user_left_switch_msg prev username e)
                   (Some ws)
                   (with_rooms (alter (set_delete ws) prev) st)).2) as Hmem.
      { apply broadcast_members_ok, members_ok_remove; [done|].
        intros held. rewrite Hheld. by intros [= <-]. }
      by destruct (Hmem r' room' ws Hroom' Hin).
  - intros Hroom' Hin. destruct (Hok r' room' ws Hroom' Hin). congruence.
Qed.

Lemma handleJoinRoom_names_all e ws message st :
  bindings_ok None st → members_ok None st → names_all st →
  names_all (handleJoinRoom e ws message st).2.
Proof.
  intros Hbind Hok Hall.
  destruct (truthy (msg_roomId message)) as [roomId|] eqn:Hr;
    [|unfold handleJoinRoom; rewrite Hr; by apply ws_send_names_all].
  destruct (truthy (msg_username message)) as [username|] eqn:Hu;
    [|unfold handleJoinRoom; rewrite Hr, Hu; by apply ws_send_names_all].
  destruct (rooms st !! roomId) as [room|] eqn:Hroom;
    [|unfold handleJoinRoom; rewrite Hr, Hu, Hroom;
      by apply ws_send_names_all].
  destruct (name_taken st room ws username) eqn:Htaken;
    [unfold handleJoinRoom; rewrite Hr, Hu, Hroom, Htaken;
     by apply ws_send_names_all|].
  destruct (handleJoinRoom_accepted e ws message st roomId username room
              Hr Hu Hroom Htaken) as [_ ->].
  destruct (leave_previous_join_effect e ws roomId username st)
    as (_ & _ & Hrooms & _).
  rewrite Hroom in Hrooms.
  pose proof (leave_previous_join_shrinks e ws roomId username st) as Hshrink.
  set (st1 := (leave_previous_join e ws roomId username st).2) in *.
  assert (names_all
            (bind_socket ws roomId username
               (with_rooms (alter (set_add ws) roomId) st1))) as Hst2.
  { apply (names_all_bind _ _ _ _ room); [|done| |].
    - by apply (names_all_shrinks st).
    - intros d Hd Hname. destruct Hshrink as [_ Hn].
      unfold prop_username in Hname. rewrite Hn in Hname.
      by apply (proj1 (name_taken_false st room ws username)).
    - by apply leave_previous_join_elsewhere. }
  destruct (sendThrows e ws); [done|].
  eapply names_all_shrinks; [apply broadcast_shrinks|].
  revert Hst2. apply names_all_shrinks, same_tables_shrinks.
  apply with_sent_same_tables.
Qed.

Lemma handleChatMessage_names_all e ws message st :
  names_all st → names_all (handleChatMessage e ws message st).2.
Proof.
  intros Hall. unfold handleChatMessage.
  destruct (truthy (msg_roomId message)) as [roomId|];
    [|by apply ws_send_names_all].
  destruct (msg_message message); [|by apply ws_send_names_all].
  destruct (rooms st !! roomId) as [room|]; [|by apply ws_send_names_all].
  destruct (set_has ws room); [|by apply ws_send_names_all].
  rewrite log_template_then. destruct (existsb _ _); [done|].
  revert Hall. apply names_all_shrinks, broadcast_shrinks.
Qed.

Lemma handleLeaveRoom_names_all e ws message st :
  names_all st → names_all (handleLeaveRoom e ws message st).2.
Proof.
  intros Hall.
  destruct (truthy (js_or (msg_roomId message) (prop_roomId st ws)))
    as [roomId|] eqn:Hr; [|unfold handleLeaveRoom; by rewrite Hr].
  destruct (rooms st !! roomId) as [room|] eqn:Hroom;
    [|unfold handleLeaveRoom; by rewrite Hr, Hroom].
  rewrite (handleLeaveRoom_resolved _ _ _ _ _ _ Hr Hroom).
  apply ws_send_names_all, names_all_clear.
  eapply names_all_shrinks; [apply broadcast_shrinks|].
  revert Hall. apply names_all_shrinks, remove_socket_shrinks.
Qed.

Lemma handleUserDisconnect_names_all e ws st :
  names_all st → names_all (handleUserDisconnect e ws st).2.
Proof.
  intros Hall. unfold handleUserDisconnect.
  destruct (truthy (prop_roomId st ws)) as [roomId|]; [|done].
  destruct (rooms st !! roomId); [|done].
  assert (names_all (remove_socket ws roomId st)) as Hremoved
    by (revert Hall; apply names_all_shrinks, remove_socket_shrinks).
  destruct (truthy (prop_username st ws)); [|done].
  revert Hremoved. apply names_all_shrinks, broadcast_shrinks.
Qed.

Lemma handle_event_names_all e ev st :
  bindings_ok None st → members_ok None st → names_all st →
  civil_event st ev → names_all (handle_event e ev st).2.
Proof.
  intros Hbind Hok Hall [_ Hcivil].
  destruct ev as [ws [message|]|ws|]; simpl.
  - assert (names_all (handleMessage e ws message st).2) as Hafter.
    { destruct message as [ty rid un payload]. simpl in Hcivil.
      unfold handleMessage. simpl.
      repeat (first
        [ apply handleCreateRoom_names_all;
            [exact Hbind|exact Hok|exact Hall|exact (Hcivil eq_refl)]
        | apply handleJoinRoom_names_all; [exact Hbind|exact Hok|exact Hall]
        | apply handleChatMessage_names_all; exact Hall
        | apply handleLeaveRoom_names_all; exact Hall
        | apply ws_send_names_all; exact Hall
        | match goal with
          | |- context [match ?x with _ => _ end] => destruct x
          end ]). }
    unfold on_message.
    destruct (handleMessage e ws message st) as [[] st']; [done|].
    by apply ws_send_names_all.
  - unfold on_message. by apply ws_send_names_all.
  - by apply handleUserDisconnect_names_all.
  - revert Hall. apply names_all_shrinks, reaper_shrinks.
Qed.

Lemma reachable_civil_tidy st : reachable_civil st → reachable_tidy st.
Proof. induction 1 as [|e ev st _ IH [Htidy _]]; by constructor. Qed.

Lemma reachable_tidy_members st : reachable_tidy st → members_ok None st.
Proof.
  induction 1 as [|e ev st Hst IH Hev].
  - intros r room c Hroom.
    change (rooms initial) with (∅ : gmap string (list conn)) in Hroom.
    by rewrite lookup_empty in Hroom.
  - apply handle_event_members_ok; [|done|done].
    by apply reachable_bindings_ok, reachable_tidy_reachable.
Qed.

(** X20: as long as every turn is civil (no [leave_room] names a foreign
    existing room, no [create_room] targets an existing room under a name
    another member holds), the names of the members of a room are
    pairwise distinct in every room. *)
Theorem civil_turns_keep_names_distinct st :
  reachable_civil st →
  ∀ r room c d u,
    rooms st !! r = Some room → c ∈ room → d ∈ room →
    prop_username st c = Str u → prop_username st d = Str u → c = d.
Proof.
  intros Hcivil.
  assert (names_all st) as Hall.
  { induction Hcivil as [|e ev st Hst IH Hev].
    - intros r room Hroom.
      change (rooms initial) with (∅ : gmap string (list conn)) in Hroom.
      by rewrite lookup_empty in Hroom.
    - pose proof (reachable_civil_tidy st Hst) as Htidy.
      apply handle_event_names_all; [| |done|done].
      + by apply reachable_bindings_ok, reachable_tidy_reachable.
      + by apply reachable_tidy_members. }
  intros r room c d u Hroom. by apply (Hall r room Hroom).
Qed.

Lemma two_in_R1_civil : reachable_civil two_in_R1.
Proof.
  apply (civil_turn (calm 2) (receives bob_ws (join_room "R1" "bob"))).
  - apply (civil_turn (calm 1)
             (receives alice_ws (create_room "R1" "alice"))).
    + constructor.
    + split; [intros Hty; discriminate Hty|].
      intros _ r u room _ _ Hroom.
      change (rooms initial) with (∅ : gmap string (list conn)) in Hroom.
      by rewrite lookup_empty in Hroom.
  - split; intros Hty; discriminate Hty.
Qed.

(** X20, a concrete case: Alice and Bob in "R1". *)
Lemma civil_turns_keep_names_distinct_witness :
  rooms two_in_R1 !! "R1" = Some [alice_ws; bob_ws]
  ∧ prop_username two_in_R1 bob_ws = Str "bob"
  ∧ bob_ws = bob_ws.
Proof.
  assert (rooms two_in_R1 !! "R1" = Some [alice_ws; bob_ws]) as Hroom
    by (vm_compute; reflexivity).
  assert (prop_username two_in_R1 bob_ws = Str "bob") as Hname
    by (vm_compute; reflexivity).
  split; [exact Hroom|]. split; [exact Hname|].
  apply (civil_turns_keep_names_distinct two_in_R1 two_in_R1_civil
           "R1" [alice_ws; bob_ws] bob_ws bob_ws "bob" Hroom).
  - right. left.
  - right. left.
  - exact Hname.
  - exact Hname.
Defined.
